(** * ksched: the flow scheduler's reconciliation loop

    A shallow embedding of [scheduling/flow/flowscheduler/scheduler.go] and of
    the registries of [pkg/types] (the lock-guarded maps with their
    [FindPtrOrNull] and friends), followed by the properties of the
    scheduling round, of delta application and of the job and resource
    lifecycle.

    Go pointers are modelled by locations into a typed memory, [nil] being
    [None]; a memory gives an object to every location, which is Go's
    guarantee that a non-nil pointer refers to a live object.  A call either
    returns or halts the process ([log.Panicf], [panic], [log.Fatalf], a nil
    dereference); both outcomes carry the state reached. *)

From stdpp Require Import gmap strings list fin_maps functions.

Set Default Proof Using "Type".
Open Scope Z_scope.

(** ** Identifiers ([pkg/types]) *)

(** [TaskID], [ResourceID] and [JobID] are [uint64]; no arithmetic is done on
    them, they are only compared and used as keys. *)
Abbreviation TaskID := N (only parsing).
Abbreviation ResourceID := N (only parsing).
Abbreviation JobID := N (only parsing).
(** [flowgraph.NodeID], the identifiers of the nodes of the flow network. *)
Abbreviation NodeID := N (only parsing).

(** A memory location; a pointer is a location or [nil]. *)
Abbreviation loc := N (only parsing).
Abbreviation pointer := (option N) (only parsing).
Abbreviation nil_ptr := (@None N) (only parsing).

(** ** Descriptors ([proto]) *)

(** Modelled from the spec: package [proto] is not among the sources.  Its
    records have here the fields [scheduler.go] reads and writes.  The
    enumerations are [int32]-based in Go: besides the named constants the
    code refers to, a value may be any other number. *)
Inductive JobState :=
  | JobDescriptor_Running
  | JobDescriptor_Completed
  | JobDescriptor_State_other (n : Z).

Inductive ResourceType :=
  | ResourceDescriptor_ResourcePu
  | ResourceDescriptor_Type_other (n : Z).

Inductive ChangeType :=
  | SchedulingDelta_NOOP
  | SchedulingDelta_PLACE
  | SchedulingDelta_PREEMPT
  | SchedulingDelta_MIGRATE
  | SchedulingDelta_Type_other (n : Z).

Global Instance JobState_eq_dec : EqDecision JobState.
Proof. solve_decision. Defined.
Global Instance ResourceType_eq_dec : EqDecision ResourceType.
Proof. solve_decision. Defined.
Global Instance ChangeType_eq_dec : EqDecision ChangeType.
Proof. solve_decision. Defined.

Record JobDescriptor := mkJobDescriptor {
  jd_Uuid : string;
  jd_State : JobState
}.

Record TaskDescriptor := mkTaskDescriptor {
  td_JobID : string
}.

Record ResourceDescriptor := mkResourceDescriptor {
  rd_Type : ResourceType;
  rd_Schedulable : bool
}.

(** Modelled from the spec: [resourcestatus.ResourceStatus] is not among the
    sources; it wraps a resource descriptor, which [Descriptor()] gives. *)
Record ResourceStatus := mkResourceStatus {
  rs_descriptor : pointer
}.

(** A node of the resource topology: its descriptor, its children and the
    identifier of its parent (empty for a root). *)
Record ResourceTopologyNodeDescriptor := mkRTND {
  rtnd_ResourceDesc : pointer;
  rtnd_Children : list pointer;
  rtnd_ParentId : string
}.

Record SchedulingDelta := mkSchedulingDelta {
  sd_Type : ChangeType;
  sd_TaskId : N;
  sd_ResourceId : string
}.

Global Instance SchedulingDelta_eq_dec : EqDecision SchedulingDelta.
Proof. solve_decision. Defined.

(** Field assignments through a pointer. *)
Definition set_jd_State (st : JobState) (jd : JobDescriptor) : JobDescriptor :=
  {| jd_Uuid := jd_Uuid jd; jd_State := st |}.

Definition set_rd_Schedulable (b : bool) (rd : ResourceDescriptor)
  : ResourceDescriptor :=
  {| rd_Type := rd_Type rd; rd_Schedulable := b |}.

(** ** Memory *)

Record memory := mkMemory {
  jobDescs : loc → JobDescriptor;
  taskDescs : loc → TaskDescriptor;
  resourceDescs : loc → ResourceDescriptor;
  resourceStatuses : loc → ResourceStatus;
  topologyNodes : loc → ResourceTopologyNodeDescriptor
}.

Definition with_jobDescs (f : loc → JobDescriptor) (m : memory) : memory :=
  {| jobDescs := f; taskDescs := taskDescs m;
     resourceDescs := resourceDescs m; resourceStatuses := resourceStatuses m;
     topologyNodes := topologyNodes m |}.

Definition with_resourceDescs (f : loc → ResourceDescriptor) (m : memory)
  : memory :=
  {| jobDescs := jobDescs m; taskDescs := taskDescs m;
     resourceDescs := f; resourceStatuses := resourceStatuses m;
     topologyNodes := topologyNodes m |}.

(** ** Registries ([pkg/types]) *)

(** [ResourceMap], [JobMap] and [TaskMap] are the same lock-guarded map from
    an identifier to a pointer, written three times; [registry] is their [M]
    field.  The locks do not show in a sequential run. *)
Abbreviation registry := (gmap N (option N)) (only parsing).

Module types.

(** [v, ok := m.M[k]; if !ok { v = dV }; return v] *)
Definition FindWithDefault (m : registry) (k : N) (dV : pointer) : pointer :=
  match m !! k with
  | Some v => v
  | None => dV
  end.

(** [v := m.M[k]; return v]: [nil] for a missing key, and for a key that is
    mapped to [nil]. *)
Definition FindPtrOrNull (m : registry) (k : N) : pointer :=
  match m !! k with
  | Some v => v
  | None => nil_ptr
  end.

(** [_, ok := m.M[k]; m.M[k] = val; return !ok] *)
Definition InsertOrUpdate (m : registry) (k : N) (val : pointer)
  : bool * registry :=
  (bool_decide (m !! k = None), <[k := val]> m).

(** [_, ok := m.M[k]; if !ok { m.M[k] = val }; return !ok] *)
Definition InsertIfNotPresent (m : registry) (k : N) (val : pointer)
  : bool * registry :=
  match m !! k with
  | Some _ => (false, m)
  | None => (true, <[k := val]> m)
  end.

(** [_, ok := m.M[k]; return ok] *)
Definition ContainsKey (m : registry) (k : N) : bool :=
  bool_decide (is_Some (m !! k)).

End types.

(** ** Collaborators of the scheduler *)

(** [flowmanager.TaskMapping], a Go map from task nodes to resource nodes.
    The scheduler only ranges over it; the list holds its entries in the
    order the [range] loop meets them, an order Go leaves open. *)
Abbreviation TaskMapping := (list (N * N)) (only parsing).

(** Package [util] is not among the sources and is taken as a parameter:
    identifiers are derived from the strings found in descriptors by
    [util.MustJobIDFromString] and [util.MustResourceIDFromString], which
    panic on a string that is no identifier: [None] here. *)
Class IDs := {
  JobIDFromString : string → option JobID;
  ResourceIDFromString : string → option ResourceID
}.

(** The interface [flowmanager.GraphManager], as far as the scheduler calls
    it; its implementations are parameters.  A graph manager keeps its own
    state [G]; it reads the topology, the registries and the bindings it is
    handed and writes none of them: its two queries return deltas. *)
Class GraphManager (G : Type) := {
  AddResourceTopology : G → memory → pointer → G;
  JobCompleted : G → JobID → G;
  SchedulingDeltasForPreemptedTasks :
    G → TaskMapping → registry → list SchedulingDelta;
  NodeBindingToSchedulingDelta :
    G → NodeID → NodeID → gmap TaskID ResourceID → SchedulingDelta;
  UpdateResourceTopology : G → memory → pointer → G
}.

(** The interface [placement.Solver]: [Solve] runs on the graph manager's
    network and gives the mapping, the solver moving to its next state. *)
Class Solver (S G : Type) := {
  Solve : S → G → TaskMapping * S
}.

(** ** The scheduler *)

Record scheduler (G S : Type) := mkScheduler {
  resourceMap : registry;
  jobMap : registry;
  taskMap : registry;
  resourceTopology : pointer;
  gm : G;
  solver : S;
  (* Root nodes (presumably machines) of all the resources in the topology,
     a set keyed by pointer *)
  resourceRoots : gset pointer;
  (* tracks the old state of which task maps to which resource (before each
     iteration) *)
  taskBindings : gmap TaskID ResourceID;
  (* the jobs to be scheduled in the next scheduling round *)
  jobsToSchedule : gmap JobID pointer;
  runnableTasks : gmap JobID (gset TaskID)
}.

Arguments mkScheduler {G S}.
Arguments resourceMap {G S}.
Arguments jobMap {G S}.
Arguments taskMap {G S}.
Arguments resourceTopology {G S}.
Arguments gm {G S}.
Arguments solver {G S}.
Arguments resourceRoots {G S}.
Arguments taskBindings {G S}.
Arguments jobsToSchedule {G S}.
Arguments runnableTasks {G S}.

(** The scheduler together with the objects its pointers refer to. *)
Record world (G S : Type) := mkWorld {
  sched : scheduler G S;
  mem : memory
}.

Arguments mkWorld {G S}.
Arguments sched {G S}.
Arguments mem {G S}.

(** How a call can halt the process. *)
Inductive Halt :=
  | LogPanicf          (* log.Panicf(...) *)
  | ExplicitPanic      (* panic("") *)
  | LogFatalf          (* log.Fatalf(...): the process exits *)
  | MustFromString     (* a util.Must...FromString on a string that is no id *)
  | NilDereference.    (* a field read or written through nil *)

Global Instance Halt_eq_dec : EqDecision Halt.
Proof. solve_decision. Defined.

Inductive Outcome (W A : Type) :=
  | Returns (a : A) (w : W)
  | Halts (h : Halt) (w : W).

Arguments Returns {W A}.
Arguments Halts {W A}.

Definition returned {W A} (o : Outcome W A) : option A :=
  match o with Returns a _ => Some a | Halts _ _ => None end.

Definition halted {W A} (o : Outcome W A) : option Halt :=
  match o with Returns _ _ => None | Halts h _ => Some h end.

Definition final {W A} (o : Outcome W A) : W :=
  match o with Returns _ w => w | Halts _ w => w end.

(** Computations on a state [W] that may halt. *)
Definition M (W A : Type) : Type := W → Outcome W A.

Global Instance M_ret {W} : MRet (M W) := λ A a w, Returns a w.

Global Instance M_bind {W} : MBind (M W) := λ A B f m w,
  match m w with
  | Returns a w' => f a w'
  | Halts h w' => Halts h w'
  end.

Definition halt {W A} (h : Halt) : M W A := λ w, Halts h w.
Definition get {W} : M W W := λ w, Returns w w.
Definition modify {W} (f : W → W) : M W unit := λ w, Returns tt (f w).

(** Go leaves open the order in which a [range] loop meets the entries of a
    map, and the order may differ from one loop to the next.  The order in
    which the loop over [resourceRoots] meets the roots is therefore a
    parameter: in every state, some enumeration of the set. *)
Class RangeOrder (G S : Type) := {
  rangeRoots : world G S → list pointer;
  rangeRoots_perm w : rangeRoots w ≡ₚ elements (resourceRoots (sched w))
}.

(** ** [scheduler.go] *)

Section flowscheduler.
Context `{IDs} {G S : Type} `{!GraphManager G} `{!Solver S G}
  `{!RangeOrder G S}.

Local Abbreviation W := (world G S).

(** *** Assignments to the scheduler's fields and through pointers *)

Definition with_gm (g : G) (w : W) : W :=
  let s := sched w in
  mkWorld (mkScheduler (resourceMap s) (jobMap s) (taskMap s)
             (resourceTopology s) g (solver s) (resourceRoots s)
             (taskBindings s) (jobsToSchedule s) (runnableTasks s)) (mem w).

Definition with_solver (sv : S) (w : W) : W :=
  let s := sched w in
  mkWorld (mkScheduler (resourceMap s) (jobMap s) (taskMap s)
             (resourceTopology s) (gm s) sv (resourceRoots s)
             (taskBindings s) (jobsToSchedule s) (runnableTasks s)) (mem w).

Definition with_resourceRoots (r : gset pointer) (w : W) : W :=
  let s := sched w in
  mkWorld (mkScheduler (resourceMap s) (jobMap s) (taskMap s)
             (resourceTopology s) (gm s) (solver s) r
             (taskBindings s) (jobsToSchedule s) (runnableTasks s)) (mem w).

Definition with_jobsToSchedule (j : gmap JobID pointer) (w : W) : W :=
  let s := sched w in
  mkWorld (mkScheduler (resourceMap s) (jobMap s) (taskMap s)
             (resourceTopology s) (gm s) (solver s) (resourceRoots s)
             (taskBindings s) j (runnableTasks s)) (mem w).

Definition with_runnableTasks (r : gmap JobID (gset TaskID)) (w : W) : W :=
  let s := sched w in
  mkWorld (mkScheduler (resourceMap s) (jobMap s) (taskMap s)
             (resourceTopology s) (gm s) (solver s) (resourceRoots s)
             (taskBindings s) (jobsToSchedule s) r) (mem w).

Definition with_mem (m : memory) (w : W) : W := mkWorld (sched w) m.

(** Reading the object behind a pointer; through [nil] the process halts. *)
Definition load {A} (sel : memory → loc → A) (p : pointer) : M W A :=
  match p with
  | Some l => w ← get; mret (sel (mem w) l)
  | None => halt NilDereference
  end.

(** [jd.State = st] *)
Definition store_jd_State (jd : pointer) (st : JobState) : M W unit :=
  match jd with
  | Some l =>
      modify (λ w, with_mem (with_jobDescs
        (<[l := set_jd_State st (jobDescs (mem w) l)]> (jobDescs (mem w)))
        (mem w)) w)
  | None => halt NilDereference
  end.

(** [rd.Schedulable = b] *)
Definition store_rd_Schedulable (rd : pointer) (b : bool) : M W unit :=
  match rd with
  | Some l =>
      modify (λ w, with_mem (with_resourceDescs
        (<[l := set_rd_Schedulable b (resourceDescs (mem w) l)]>
           (resourceDescs (mem w)))
        (mem w)) w)
  | None => halt NilDereference
  end.

(** A [util.Must...FromString] call. *)
Definition must {A} (o : option A) : M W A :=
  match o with
  | Some a => mret a
  | None => halt MustFromString
  end.

(** [if cond { halt }] *)
Definition halt_if (cond : bool) (h : Halt) : M W unit :=
  if cond then halt h else mret tt.

(** *** The event-driven part *)

(** [s.jobsToSchedule[util.MustJobIDFromString(jd.Uuid)] = jd] *)
Definition AddJob (jd : pointer) : M W unit :=
  jdv ← load jobDescs jd;
  jobID ← must (JobIDFromString (jd_Uuid jdv));
  modify (λ w, with_jobsToSchedule
                 (<[jobID := jd]> (jobsToSchedule (sched w))) w).

Definition HandleJobCompletion (jobID : JobID) : M W unit :=
  (* Job completed, so remove its nodes *)
  modify (λ w, with_gm (JobCompleted (gm (sched w)) jobID) w);;
  w ← get;
  let jd := types.FindPtrOrNull (jobMap (sched w)) jobID in
  halt_if (bool_decide (jd = nil_ptr)) LogPanicf;;
  modify (λ w, with_jobsToSchedule (delete jobID (jobsToSchedule (sched w))) w);;
  modify (λ w, with_runnableTasks (delete jobID (runnableTasks (sched w))) w);;
  store_jd_State jd JobDescriptor_Completed.

(** The loop of [RegisterResource] on the queue [toVisit]: the body pops the
    front node and marks its descriptor when that is a PU.  It pushes
    nothing, so the queue only shrinks and the loop ends. *)
Fixpoint RegisterResource_loop (toVisit : list pointer) : M W unit :=
  match toVisit with
  | [] => mret tt
  | front :: toVisit' =>
      node ← load topologyNodes front;
      let currRD := rtnd_ResourceDesc node in
      rd ← load resourceDescs currRD;
      (if decide (rd_Type rd = ResourceDescriptor_ResourcePu)
       then store_rd_Schedulable currRD true
       else mret tt);;
      RegisterResource_loop toVisit'
  end.

Definition RegisterResource (rtnd : pointer) : M W unit :=
  (* toVisit := queue.NewFIFO(); toVisit.Push(rtnd) *)
  RegisterResource_loop [rtnd];;
  (* Flow scheduler related work *)
  modify (λ w, with_gm (AddResourceTopology (gm (sched w)) (mem w) rtnd) w);;
  node ← load topologyNodes rtnd;
  if decide (rtnd_ParentId node = "")
  then modify (λ w, with_resourceRoots ({[rtnd]} ∪ resourceRoots (sched w)) w)
  else mret tt.

(** *** Applying deltas *)

(** The three hooks have empty bodies. *)
Definition HandleTaskPlacement (td rd : pointer) : M W unit := mret tt.
Definition HandleTaskEviction (td rd : pointer) : M W unit := mret tt.
Definition HandleTaskMigration (td rd : pointer) : M W unit := mret tt.

(** [rs.Descriptor()] *)
Definition Descriptor (rs : pointer) : M W pointer :=
  rsv ← load resourceStatuses rs; mret (rs_descriptor rsv).

(** One turn of the loop of [ApplySchedulingDeltas], on the delta [d] with
    the counter at [numScheduled]; the result is the counter afterwards. *)
Definition applyDelta (d : SchedulingDelta) (numScheduled : Z) : M W Z :=
  w ← get;
  let s := sched w in
  let td := types.FindPtrOrNull (taskMap s) (sd_TaskId d) in
  halt_if (bool_decide (td = nil_ptr)) ExplicitPanic;;
  resID ← must (ResourceIDFromString (sd_ResourceId d));
  let rs := types.FindPtrOrNull (resourceMap s) resID in
  halt_if (bool_decide (rs = nil_ptr)) ExplicitPanic;;
  match sd_Type d with
  | SchedulingDelta_PLACE =>
      tdv ← load taskDescs td;
      jobID ← must (JobIDFromString (td_JobID tdv));
      let jd := types.FindPtrOrNull (jobMap s) jobID in
      jdv ← load jobDescs jd;
      (if decide (jd_State jdv ≠ JobDescriptor_Running)
       then store_jd_State jd JobDescriptor_Running
       else mret tt);;
      rd ← Descriptor rs;
      HandleTaskPlacement td rd;;
      mret (numScheduled + 1)
  | SchedulingDelta_PREEMPT =>
      rd ← Descriptor rs;
      HandleTaskEviction td rd;;
      mret numScheduled
  | SchedulingDelta_MIGRATE =>
      rd ← Descriptor rs;
      HandleTaskMigration td rd;;
      mret numScheduled
  | SchedulingDelta_NOOP =>
      (* log.Println *)
      mret numScheduled
  | SchedulingDelta_Type_other _ =>
      halt LogFatalf
  end.

Fixpoint ApplySchedulingDeltas_loop (deltas : list SchedulingDelta)
    (numScheduled : Z) : M W Z :=
  match deltas with
  | [] => mret numScheduled
  | d :: deltas' =>
      numScheduled' ← applyDelta d numScheduled;
      ApplySchedulingDeltas_loop deltas' numScheduled'
  end.

(** [numScheduled] is an [int]; it counts elements of a slice, whose length
    is an [int] too, so it does not overflow. *)
Definition ApplySchedulingDeltas (deltas : list SchedulingDelta) : M W Z :=
  ApplySchedulingDeltas_loop deltas 0.

(** *** The scheduling round *)

(** The body of the loop over [taskMappings]:
    [d := s.gm.NodeBindingToSchedulingDelta(...); deltas = append(deltas, d)] *)
Definition bindingStep (s : scheduler G S) (deltas : list SchedulingDelta)
    (entry : NodeID * NodeID) : list SchedulingDelta :=
  let d := NodeBindingToSchedulingDelta (gm s) entry.1 entry.2
             (taskBindings s) in
  deltas ++ [d].

Definition RunSchedulingIteration : M W (list SchedulingDelta * Z) :=
  w ← get;
  let s := sched w in
  let '(taskMappings, solver') := Solve (solver s) (gm s) in
  modify (with_solver solver');;
  let deltas :=
    SchedulingDeltasForPreemptedTasks (gm s) taskMappings (resourceMap s) in
  let deltas := foldl (bindingStep s) deltas taskMappings in
  numScheduled ← ApplySchedulingDeltas deltas;
  (* for rtnd := range s.resourceRoots *)
  modify (λ w, with_gm
    (foldl (λ g rtnd, UpdateResourceTopology g (mem w) rtnd)
           (gm (sched w)) (rangeRoots w)) w);;
  mret (deltas, numScheduled).

End flowscheduler.

(** ** Notions the properties are stated with *)

Section resolution.
Context `{IDs} {G S : Type}.

(** The delta's task has a descriptor in the task registry. *)
Definition taskResolves (w : world G S) (d : SchedulingDelta) : bool :=
  bool_decide (is_Some (types.FindPtrOrNull (taskMap (sched w)) (sd_TaskId d))).

(** The delta's resource has a status in the resource registry. *)
Definition resourceResolves (w : world G S) (d : SchedulingDelta) : bool :=
  match ResourceIDFromString (sd_ResourceId d) with
  | Some resID =>
      bool_decide (is_Some (types.FindPtrOrNull (resourceMap (sched w)) resID))
  | None => false
  end.

(** The job owning the delta's task has a descriptor in the job registry. *)
Definition jobResolves (w : world G S) (d : SchedulingDelta) : bool :=
  match types.FindPtrOrNull (taskMap (sched w)) (sd_TaskId d) with
  | Some td =>
      match JobIDFromString (td_JobID (taskDescs (mem w) td)) with
      | Some jobID =>
          bool_decide (is_Some (types.FindPtrOrNull (jobMap (sched w)) jobID))
      | None => false
      end
  | None => false
  end.

End resolution.

(** The nodes of the topology below (and including) [root]: the subtree the
    [Children] links span in memory [m]. *)
Inductive in_subtree (m : memory) (root : pointer) : pointer → Prop :=
  | in_subtree_root : in_subtree m root root
  | in_subtree_child (l : loc) (child : pointer) :
      in_subtree m root (Some l) →
      child ∈ rtnd_Children (topologyNodes m l) →
      in_subtree m root child.

(** The number of PLACE deltas of a list. *)
Definition isPlace (d : SchedulingDelta) : bool :=
  bool_decide (sd_Type d = SchedulingDelta_PLACE).

Definition countPlace (deltas : list SchedulingDelta) : Z :=
  Z.of_nat (length (filter (λ d, isPlace d = true) deltas)).

(** The delta types [ApplySchedulingDeltas] has a case for. *)
Definition recognized (t : ChangeType) : bool :=
  match t with
  | SchedulingDelta_Type_other _ => false
  | _ => true
  end.

(** ** A graph manager and a solver to run the scheduler with *)

Module flowmanager.

(** What the scheduler asked of the graph manager, latest call first. *)
Inductive call :=
  | CallAddResourceTopology (rtnd : pointer)
  | CallJobCompleted (jobID : JobID)
  | CallUpdateResourceTopology (rtnd : pointer).

(** Modelled from the spec: the type [graphManager] behind the interface
    [flowmanager.GraphManager] is not among the sources.  It knows which task
    a task node stands for and which resource a resource node stands for,
    and which tasks run where. *)
Record graphManager := mkGraphManager {
  taskOfNode : NodeID → TaskID;
  resourceOfNode : NodeID → string;
  (* task node, task, resource the task runs on *)
  running : list (NodeID * TaskID * string);
  calls : list call
}.

Definition record_call (c : call) (g : graphManager) : graphManager :=
  {| taskOfNode := taskOfNode g; resourceOfNode := resourceOfNode g;
     running := running g; calls := c :: calls g |}.

(** Modelled from the spec: [NodeBindingToSchedulingDelta] is not among the
    sources.  A task absent from the previous bindings gives a PLACE, one
    bound to a different resource a MIGRATE, and for one bound to the same
    resource no delta is needed: the method still returns one
    [pb.SchedulingDelta], which is then the NOOP delta. *)
Definition graphManager_NodeBindingToSchedulingDelta `{IDs}
    (g : graphManager) (taskNodeID resourceNodeID : NodeID)
    (taskBindings : gmap TaskID ResourceID) : SchedulingDelta :=
  let task := taskOfNode g taskNodeID in
  let res := resourceOfNode g resourceNodeID in
  match taskBindings !! task with
  | None => mkSchedulingDelta SchedulingDelta_PLACE task res
  | Some bound =>
      if decide (ResourceIDFromString res = Some bound)
      then mkSchedulingDelta SchedulingDelta_NOOP task res
      else mkSchedulingDelta SchedulingDelta_MIGRATE task res
  end.

(** Modelled from the spec: [SchedulingDeltasForPreemptedTasks] is not among
    the sources.  The new assignment is compared with the running tasks: a
    running task whose node the assignment leaves out is preempted from the
    resource it runs on. *)
Definition graphManager_SchedulingDeltasForPreemptedTasks
    (g : graphManager) (taskMappings : TaskMapping) (rmap : registry)
    : list SchedulingDelta :=
  omap (λ '(node, task, res),
          if decide (node ∈ taskMappings.*1) then None
          else Some (mkSchedulingDelta SchedulingDelta_PREEMPT task res))
       (running g).

#[export] Instance graphManager_GraphManager `{IDs} : GraphManager graphManager := {|
  AddResourceTopology g _ rtnd := record_call (CallAddResourceTopology rtnd) g;
  JobCompleted g jobID := record_call (CallJobCompleted jobID) g;
  SchedulingDeltasForPreemptedTasks :=
    graphManager_SchedulingDeltasForPreemptedTasks;
  NodeBindingToSchedulingDelta := graphManager_NodeBindingToSchedulingDelta;
  UpdateResourceTopology g _ rtnd :=
    record_call (CallUpdateResourceTopology rtnd) g
|}.

End flowmanager.

Module runtime.

(** One order a [range] loop over the roots may take: that of the set's
    enumeration. *)
#[export] Instance elements_RangeOrder {G S} : RangeOrder G S.
Proof.
  refine {| rangeRoots w := elements (resourceRoots (sched w)) |}.
  intros w. reflexivity.
Defined.

(** Another one: the same enumeration backwards. *)
Definition backwards_RangeOrder {G S} : RangeOrder G S.
Proof.
  refine {| rangeRoots w := reverse (elements (resourceRoots (sched w))) |}.
  intros w. apply reverse_Permutation.
Defined.

End runtime.

Module placement.

(** A solver that answers from a script: one mapping per round. *)
Definition scripted := list TaskMapping.

#[export] Instance scripted_Solver {G} : Solver scripted G := {|
  Solve script _ := (hd [] script, tl script)
|}.

End placement.

(** ** The end-to-end run: job J1 with tasks T1 and T2, machine M1 with the
    processing units P1 and P2 *)

Module Scenario.
Import flowmanager placement runtime.

Definition J1 : JobID := 1%N.
Definition T1 : TaskID := 1%N.
Definition T2 : TaskID := 2%N.
Definition T3 : TaskID := 3%N.

(** The identifiers behind the strings of this run. *)
#[export] Instance ids : IDs := {|
  JobIDFromString s := if decide (s = "J1") then Some J1 else None;
  ResourceIDFromString s :=
    if decide (s = "P1") then Some 1%N
    else if decide (s = "P2") then Some 2%N
    else if decide (s = "M1") then Some 3%N
    else None
|}.

(** Where the objects live. *)
Definition jd_J1 : loc := 10%N.
Definition td_T1 : loc := 20%N.
Definition td_T2 : loc := 21%N.
Definition td_T3 : loc := 22%N.
Definition rs_P1 : loc := 30%N.
Definition rs_P2 : loc := 31%N.
Definition rs_M1 : loc := 32%N.
Definition rd_P1 : loc := 40%N.
Definition rd_P2 : loc := 41%N.
Definition rd_M1 : loc := 42%N.
Definition rtnd_M1 : loc := 50%N.
Definition rtnd_P1 : loc := 51%N.
Definition rtnd_P2 : loc := 52%N.

Definition pending : JobState := JobDescriptor_State_other 0.
Definition machine : ResourceType := ResourceDescriptor_Type_other 1.

Definition memory0 : memory := {|
  jobDescs _ := mkJobDescriptor "J1" pending;
  taskDescs _ := mkTaskDescriptor "J1";
  resourceDescs l :=
    if decide (l = rd_M1) then mkResourceDescriptor machine false
    else mkResourceDescriptor ResourceDescriptor_ResourcePu false;
  resourceStatuses l :=
    if decide (l = rs_P1) then mkResourceStatus (Some rd_P1)
    else if decide (l = rs_P2) then mkResourceStatus (Some rd_P2)
    else mkResourceStatus (Some rd_M1);
  topologyNodes l :=
    if decide (l = rtnd_M1)
    then mkRTND (Some rd_M1) [Some rtnd_P1; Some rtnd_P2] ""
    else if decide (l = rtnd_P1) then mkRTND (Some rd_P1) [] "M1"
    else mkRTND (Some rd_P2) [] "M1"
|}.

(** Task nodes 101, 102, 103 stand for T1, T2, T3; resource nodes 201 and
    202 for P1 and P2. *)
Definition gm0 : graphManager := {|
  taskOfNode n := (n - 100)%N;
  resourceOfNode n := if decide (n = 201%N) then "P1" else "P2";
  running := [];
  calls := []
|}.

Definition registries0 (script : scripted) (bindings : gmap TaskID ResourceID)
    (g : graphManager) : scheduler graphManager scripted := {|
  resourceMap := {[ 1%N := Some rs_P1; 2%N := Some rs_P2; 3%N := Some rs_M1 ]};
  jobMap := {[ J1 := Some jd_J1 ]};
  taskMap := {[ T1 := Some td_T1; T2 := Some td_T2; T3 := Some td_T3 ]};
  resourceTopology := None;
  gm := g;
  solver := script;
  resourceRoots := ∅;
  taskBindings := bindings;
  jobsToSchedule := ∅;
  runnableTasks := ∅
|}.

(** The start of the run: nothing bound, the solver about to answer
    T1 on P1 and T2 on P2. *)
Definition world0 : world graphManager scripted :=
  mkWorld (registries0 [[(101%N, 201%N); (102%N, 202%N)]] ∅ gm0) memory0.

(** [AddJob(J1); RegisterResource(M1)], then one round. *)
Definition setup : M (world graphManager scripted) unit :=
  AddJob (Some jd_J1);; RegisterResource (Some rtnd_M1).

Definition round1 : M (world graphManager scripted) (list SchedulingDelta * Z) :=
  setup;; RunSchedulingIteration.

(** A later round in which the solver repeats the binding of T1 to P1. *)
Definition world_rebound : world graphManager scripted :=
  mkWorld (registries0 [[(101%N, 201%N)]] {[ T1 := 1%N ]} gm0) memory0.

(** A round in which T1, running on P1, is left out of the assignment and
    T3 is assigned to P1. *)
Definition gm_T1_on_P1 : graphManager := {|
  taskOfNode := taskOfNode gm0;
  resourceOfNode := resourceOfNode gm0;
  running := [(101%N, T1, "P1")];
  calls := []
|}.

Definition world_preempting : world graphManager scripted :=
  mkWorld (registries0 [[(103%N, 201%N)]] {[ T1 := 1%N ]} gm_T1_on_P1) memory0.

(** The job registry emptied: J1 is unknown to it. *)
Definition forget_jobs (w : world graphManager scripted)
    : world graphManager scripted :=
  let s := sched w in
  mkWorld (mkScheduler (resourceMap s) ∅ (taskMap s) (resourceTopology s)
             (gm s) (solver s) (resourceRoots s) (taskBindings s)
             (jobsToSchedule s) (runnableTasks s)) (mem w).

(** J1 already running. *)
Definition memory_running : memory :=
  with_jobDescs (λ _, mkJobDescriptor "J1" JobDescriptor_Running) memory0.

Definition world_running : world graphManager scripted :=
  mkWorld (sched world0) memory_running.

Definition place_T1_P1 : SchedulingDelta :=
  mkSchedulingDelta SchedulingDelta_PLACE T1 "P1".

End Scenario.

(** ** [FindCopy] ([pkg/types]) *)

Definition with_taskDescs (f : loc → TaskDescriptor) (m : memory) : memory :=
  {| jobDescs := jobDescs m; taskDescs := f;
     resourceDescs := resourceDescs m; resourceStatuses := resourceStatuses m;
     topologyNodes := topologyNodes m |}.

Definition with_resourceStatuses (f : loc → ResourceStatus) (m : memory)
  : memory :=
  {| jobDescs := jobDescs m; taskDescs := taskDescs m;
     resourceDescs := resourceDescs m; resourceStatuses := f;
     topologyNodes := topologyNodes m |}.

Section FindCopy.
Context {A : Type}.
(* where the objects of the map's value type live, and how they are
   replaced *)
Variable sel : memory → loc → A.
Variable upd : (loc → A) → memory → memory.

(** [*val = *v] *)
Definition copy_object (val v : pointer) : M memory unit :=
  match v, val with
  | Some src, Some dst =>
      modify (λ mem, upd (<[dst := sel mem src]> (sel mem)) mem)
  | _, _ => halt NilDereference
  end.

(** [v, ok := m.M[k]; if ok && (v != nil) { *val = *v }; return ok] *)
Definition FindCopy (m : registry) (k : N) (val : pointer) : M memory bool :=
  let v := default nil_ptr (m !! k) in
  let ok := bool_decide (is_Some (m !! k)) in
  (if ok && bool_decide (v ≠ nil_ptr) then copy_object val v else mret tt);;
  mret ok.

End FindCopy.

(** The three copies of [FindCopy]. *)
Definition ResourceMap_FindCopy :=
  FindCopy resourceStatuses with_resourceStatuses.
Definition JobMap_FindCopy := FindCopy jobDescs with_jobDescs.
Definition TaskMap_FindCopy := FindCopy taskDescs with_taskDescs.

(** ** More inputs to run the code on *)

Module Examples.
Import flowmanager placement runtime Scenario.

(** A registry with a descriptor under key 1 and [nil] under key 2. *)
Definition registry12 : gmap N (option N) :=
  {[ 1%N := Some jd_J1; 2%N := None ]}.

(** A memory in which the job descriptors at 10 and 11 differ. *)
Definition memory_two_jobs : memory :=
  with_jobDescs
    (λ l, if decide (l = jd_J1) then mkJobDescriptor "J1" JobDescriptor_Running
          else mkJobDescriptor "other" pending)
    memory0.

(** A job descriptor whose [Uuid] is no job identifier. *)
Definition memory_bad_uuid : memory :=
  with_jobDescs (λ _, mkJobDescriptor "not an id" pending) memory0.

Definition preempt_T2_P2 : SchedulingDelta :=
  mkSchedulingDelta SchedulingDelta_PREEMPT T2 "P2".

Definition unknown_task : SchedulingDelta :=
  mkSchedulingDelta SchedulingDelta_NOOP 9%N "P1".

(** A node whose [ResourceDesc] is [nil]. *)
Definition memory_no_desc : memory := {|
  jobDescs := jobDescs memory0;
  taskDescs := taskDescs memory0;
  resourceDescs := resourceDescs memory0;
  resourceStatuses := resourceStatuses memory0;
  topologyNodes _ := mkRTND None [] ""
|}.

(** A round with one pair of each kind: T1 and T2 are bound to P1, and the
    solver assigns T1 to P1 again, T2 to P2 and the new task T3 to P1. *)
Definition world_mixed : world graphManager scripted :=
  mkWorld (registries0 [[(101%N, 201%N); (102%N, 202%N); (103%N, 201%N)]]
             {[ T1 := 1%N; T2 := 1%N ]} gm0) memory0.

(** Two machines as roots, and a round with nothing to do. *)
Definition world_two_roots : world graphManager scripted :=
  mkWorld
    (mkScheduler (resourceMap (registries0 [] ∅ gm0))
       (jobMap (registries0 [] ∅ gm0)) (taskMap (registries0 [] ∅ gm0))
       None gm0 [] {[ Some rtnd_M1; Some 60%N ]} ∅ ∅ ∅)
    memory0.

(** A round with nothing to do: the solver's mapping is empty and no task
    runs. *)
Definition world_idle : world graphManager scripted :=
  mkWorld (registries0 [] ∅ gm0) memory0.

End Examples.

(** * Properties *)

(** Running the monad. *)
Ltac run :=
  repeat (progress (unfold mbind, M_bind, mret, M_ret, halt, get, modify,
                      halt_if, must in *; simpl in *)).

(** Following every branch of a computation. *)
Ltac branches := repeat (case_match; run; simplify_eq; try done).

Section properties.
Context `{IDs} {G S : Type} `{!GraphManager G} `{!Solver S G}
  `{!RangeOrder G S}.

Local Abbreviation W := (world G S).

Implicit Types (w : W) (d : SchedulingDelta) (deltas : list SchedulingDelta).

(** ** Delta application *)

(** What one turn of the loop does to the counter. *)
Lemma applyDelta_counter d n w n' w' :
  applyDelta d n w = Returns n' w' →
  n' = n + (if isPlace d then 1 else 0).
Proof.
  unfold applyDelta, isPlace, Descriptor, load,
    HandleTaskPlacement, HandleTaskEviction, HandleTaskMigration.
  run.
  repeat (case_match; simpl in *; try discriminate);
    intros [= <- <-]; subst;
    repeat (case_bool_decide; try congruence); lia.
Qed.

Lemma countPlace_cons d deltas :
  countPlace (d :: deltas) = (if isPlace d then 1 else 0) + countPlace deltas.
Proof.
  unfold countPlace. rewrite filter_cons.
  destruct (isPlace d); case_decide; simpl; try done; lia.
Qed.

Lemma ApplySchedulingDeltas_loop_counter deltas : ∀ n w n' w',
  ApplySchedulingDeltas_loop deltas n w = Returns n' w' →
  n' = n + countPlace deltas.
Proof.
  induction deltas as [|d deltas IH]; intros n w n' w'; simpl.
  - run. intros [= <- <-]. unfold countPlace. simpl. lia.
  - run. destruct (applyDelta d n w) as [n1 w1|] eqn:Hd; [|done].
    intros Hrest. apply IH in Hrest. apply applyDelta_counter in Hd.
    rewrite countPlace_cons. lia.
Qed.

(** Delta application writes job descriptors only: the scheduler's own
    fields, whichever way the call ends, are those it started with. *)
Lemma applyDelta_sched d n w :
  sched (final (applyDelta d n w)) = sched w.
Proof.
  unfold applyDelta, Descriptor, load, store_jd_State,
    HandleTaskPlacement, HandleTaskEviction, HandleTaskMigration.
  run. branches.
Qed.

Lemma ApplySchedulingDeltas_loop_sched deltas : ∀ n w,
  sched (final (ApplySchedulingDeltas_loop deltas n w)) = sched w.
Proof.
  induction deltas as [|d deltas IH]; intros n w; simpl; [done|].
  run. pose proof (applyDelta_sched d n w) as Hd.
  destruct (applyDelta d n w) as [n1 w1|h w1]; simpl in *; [|done].
  by rewrite IH.
Qed.

(** ** The scheduling round *)

(** The deltas of a round: those of the preempted tasks, then one per entry
    of the mapping. *)
Lemma foldl_bindingStep (s : scheduler G S) (taskMappings : list (N * N)) :
  ∀ deltas,
  foldl (bindingStep s) deltas taskMappings =
  deltas ++ map (λ e, NodeBindingToSchedulingDelta (gm s) e.1 e.2
                        (taskBindings s)) taskMappings.
Proof.
  induction taskMappings as [|e tm IH]; intros deltas; simpl.
  - by rewrite app_nil_r.
  - rewrite IH. unfold bindingStep. by rewrite <-app_assoc.
Qed.

Lemma RunSchedulingIteration_unfold w :
  RunSchedulingIteration w =
  let s := sched w in
  let taskMappings := (Solve (solver s) (gm s)).1 in
  let deltas :=
    foldl (bindingStep s)
      (SchedulingDeltasForPreemptedTasks (gm s) taskMappings (resourceMap s))
      taskMappings in
  match ApplySchedulingDeltas deltas
          (with_solver (Solve (solver s) (gm s)).2 w) with
  | Returns numScheduled w1 =>
      Returns (deltas, numScheduled)
        (with_gm (foldl (λ g rtnd, UpdateResourceTopology g (mem w1) rtnd)
                    (gm (sched w1)) (rangeRoots w1)) w1)
  | Halts h w1 => Halts h w1
  end.
Proof.
  unfold RunSchedulingIteration. run.
  destruct (Solve (solver (sched w)) (gm (sched w))) as [tm sv]; simpl.
  by destruct (ApplySchedulingDeltas _ _).
Qed.

(** A round leaves [taskBindings] as it found it, however it ends: neither
    the round nor delta application nor the hooks assign to it. *)
Lemma RunSchedulingIteration_taskBindings w :
  taskBindings (sched (final (RunSchedulingIteration w))) =
  taskBindings (sched w).
Proof.
  rewrite RunSchedulingIteration_unfold. simpl.
  match goal with |- context [ApplySchedulingDeltas ?ds ?w0] =>
    pose proof (ApplySchedulingDeltas_loop_sched ds 0 w0) as Hs;
    unfold ApplySchedulingDeltas;
    destruct (ApplySchedulingDeltas_loop ds 0 w0) as [n1 w1|h w1]
  end; simpl in *; by rewrite Hs.
Qed.

(** C5. The number a round returns is the number of PLACE deltas in the list
    it returns; deltas of the other types do not count. *)
Theorem RunSchedulingIteration_counts_PLACE w w' deltas numScheduled :
  RunSchedulingIteration w = Returns (deltas, numScheduled) w' →
  numScheduled = countPlace deltas.
Proof.
  rewrite RunSchedulingIteration_unfold. simpl.
  unfold ApplySchedulingDeltas.
  destruct (ApplySchedulingDeltas_loop _ _ _) as [n1 w1|] eqn:Happly; [|done].
  intros [= <- <- _].
  apply ApplySchedulingDeltas_loop_counter in Happly. lia.
Qed.

(** C3. In the list a round returns, and has applied in that order, the
    deltas derived for the preempted tasks come first and the binding deltas
    of the mapping after them: a preemption delta stands at a smaller index
    than any binding delta, so the PREEMPT of a task on a resource precedes
    the PLACE of another task onto it. *)
Theorem preemption_deltas_precede_binding_deltas w w' deltas numScheduled :
  RunSchedulingIteration w = Returns (deltas, numScheduled) w' →
  let s := sched w in
  let taskMappings := (Solve (solver s) (gm s)).1 in
  let preempted :=
    SchedulingDeltasForPreemptedTasks (gm s) taskMappings (resourceMap s) in
  let binding (e : N * N) :=
    NodeBindingToSchedulingDelta (gm s) e.1 e.2 (taskBindings s) in
  deltas = preempted ++ map binding taskMappings ∧
  returned (ApplySchedulingDeltas deltas
              (with_solver (Solve (solver s) (gm s)).2 w))
    = Some numScheduled ∧
  ∀ (i k : nat) dp e,
    preempted !! i = Some dp →
    taskMappings !! k = Some e →
    deltas !! i = Some dp ∧
    deltas !! (length preempted + k)%nat = Some (binding e) ∧
    (i < length preempted + k)%nat.
Proof.
  rewrite RunSchedulingIteration_unfold. simpl.
  destruct (ApplySchedulingDeltas _ _) as [n1 w1|] eqn:Happly; [|done].
  intros [= <- <- _].
  rewrite foldl_bindingStep in *. rewrite Happly.
  split_and!; [done..|].
  intros i k dp e Hi Hk. split_and!.
  - by apply lookup_app_l_Some.
  - rewrite lookup_app_r by lia.
    replace (_ + k - _)%nat with k by lia.
    by rewrite list_lookup_fmap, Hk.
  - apply lookup_lt_Some in Hi. lia.
Qed.

(** ** Delta application, delta by delta *)

Lemma applyDelta_unknown_task d n w :
  types.FindPtrOrNull (taskMap (sched w)) (sd_TaskId d) = None →
  applyDelta d n w = Halts ExplicitPanic w.
Proof. intros Htd. unfold applyDelta. run. by rewrite Htd. Qed.

Lemma applyDelta_unknown_resource d n w td resID :
  types.FindPtrOrNull (taskMap (sched w)) (sd_TaskId d) = Some td →
  ResourceIDFromString (sd_ResourceId d) = Some resID →
  types.FindPtrOrNull (resourceMap (sched w)) resID = None →
  applyDelta d n w = Halts ExplicitPanic w.
Proof.
  intros Htd Hid Hrs. unfold applyDelta. run. by rewrite Htd, Hid, Hrs.
Qed.

Lemma applyDelta_unreadable_resource d n w td :
  types.FindPtrOrNull (taskMap (sched w)) (sd_TaskId d) = Some td →
  ResourceIDFromString (sd_ResourceId d) = None →
  applyDelta d n w = Halts MustFromString w.
Proof. intros Htd Hid. unfold applyDelta. run. by rewrite Htd, Hid. Qed.

Lemma applyDelta_unknown_type d n w td resID rs x :
  types.FindPtrOrNull (taskMap (sched w)) (sd_TaskId d) = Some td →
  ResourceIDFromString (sd_ResourceId d) = Some resID →
  types.FindPtrOrNull (resourceMap (sched w)) resID = Some rs →
  sd_Type d = SchedulingDelta_Type_other x →
  applyDelta d n w = Halts LogFatalf w.
Proof.
  intros Htd Hid Hrs Hty. unfold applyDelta. run.
  by rewrite Htd, Hid, Hrs, Hty.
Qed.

Lemma applyDelta_unknown_job d n w td resID rs jobID :
  sd_Type d = SchedulingDelta_PLACE →
  types.FindPtrOrNull (taskMap (sched w)) (sd_TaskId d) = Some td →
  ResourceIDFromString (sd_ResourceId d) = Some resID →
  types.FindPtrOrNull (resourceMap (sched w)) resID = Some rs →
  JobIDFromString (td_JobID (taskDescs (mem w) td)) = Some jobID →
  types.FindPtrOrNull (jobMap (sched w)) jobID = None →
  applyDelta d n w = Halts NilDereference w.
Proof.
  intros Hty Htd Hid Hrs Hjob Hjd. unfold applyDelta, load. run.
  rewrite Htd, Hid, Hrs, Hty. run. rewrite Hjob. run. by rewrite Hjd.
Qed.

(** The PLACE turn when everything resolves: the counter goes up by one and
    the job descriptor is written to only when its state is not Running. *)
Lemma applyDelta_PLACE d n w td resID rs jobID jd :
  sd_Type d = SchedulingDelta_PLACE →
  types.FindPtrOrNull (taskMap (sched w)) (sd_TaskId d) = Some td →
  ResourceIDFromString (sd_ResourceId d) = Some resID →
  types.FindPtrOrNull (resourceMap (sched w)) resID = Some rs →
  JobIDFromString (td_JobID (taskDescs (mem w) td)) = Some jobID →
  types.FindPtrOrNull (jobMap (sched w)) jobID = Some jd →
  applyDelta d n w =
  Returns (n + 1)
    (if decide (jd_State (jobDescs (mem w) jd) ≠ JobDescriptor_Running)
     then with_mem (with_jobDescs
            (<[jd := set_jd_State JobDescriptor_Running (jobDescs (mem w) jd)]>
               (jobDescs (mem w))) (mem w)) w
     else w).
Proof.
  intros Hty Htd Hid Hrs Hjob Hjd.
  unfold applyDelta, load, store_jd_State, Descriptor, HandleTaskPlacement.
  run. rewrite Htd, Hid, Hrs, Hty. run. rewrite Hjob. run. rewrite Hjd. run.
  by case_decide.
Qed.

(** C6. Applying a PLACE delta whose task, resource and owning job resolve
    returns with the job Running: a job that was not Running is made so, and
    one that was is not written to, the state being left exactly as it was. *)
Theorem PLACE_makes_job_Running d n w td resID rs jobID jd :
  sd_Type d = SchedulingDelta_PLACE →
  types.FindPtrOrNull (taskMap (sched w)) (sd_TaskId d) = Some td →
  ResourceIDFromString (sd_ResourceId d) = Some resID →
  types.FindPtrOrNull (resourceMap (sched w)) resID = Some rs →
  JobIDFromString (td_JobID (taskDescs (mem w) td)) = Some jobID →
  types.FindPtrOrNull (jobMap (sched w)) jobID = Some jd →
  ∃ w', applyDelta d n w = Returns (n + 1) w' ∧
        jd_State (jobDescs (mem w') jd) = JobDescriptor_Running ∧
        (jd_State (jobDescs (mem w) jd) ≠ JobDescriptor_Running →
           ∀ l, l ≠ jd → jobDescs (mem w') l = jobDescs (mem w) l) ∧
        (jd_State (jobDescs (mem w) jd) = JobDescriptor_Running → w' = w).
Proof.
  intros Hty Htd Hid Hrs Hjob Hjd.
  rewrite (applyDelta_PLACE d n w td resID rs jobID jd) by done.
  eexists. split; [done|].
  destruct (decide (jd_State (jobDescs (mem w) jd) ≠ JobDescriptor_Running))
    as [Hne|Heq].
  - split_and!; [|intros _ l Hl|done]; simpl.
    + by rewrite fn_lookup_insert.
    + by rewrite fn_lookup_insert_ne.
  - apply dec_stable in Heq. done.
Qed.

(** C9. Of the three lookups of delta application, those of the task and of
    the resource are followed by a check for [nil] and an explicit panic; the
    lookup of the owning job in the PLACE case is not: when the task and the
    resource resolve and the job registry has nothing for the job, the [nil]
    result is dereferenced and the process halts on that, in the state it
    was in. *)
Theorem PLACE_unknown_job_dereferences_nil d n w :
  (types.FindPtrOrNull (taskMap (sched w)) (sd_TaskId d) = None →
     applyDelta d n w = Halts ExplicitPanic w) ∧
  (∀ td resID,
     types.FindPtrOrNull (taskMap (sched w)) (sd_TaskId d) = Some td →
     ResourceIDFromString (sd_ResourceId d) = Some resID →
     types.FindPtrOrNull (resourceMap (sched w)) resID = None →
     applyDelta d n w = Halts ExplicitPanic w) ∧
  (∀ td resID rs jobID,
     sd_Type d = SchedulingDelta_PLACE →
     types.FindPtrOrNull (taskMap (sched w)) (sd_TaskId d) = Some td →
     ResourceIDFromString (sd_ResourceId d) = Some resID →
     types.FindPtrOrNull (resourceMap (sched w)) resID = Some rs →
     JobIDFromString (td_JobID (taskDescs (mem w) td)) = Some jobID →
     types.FindPtrOrNull (jobMap (sched w)) jobID = None →
     applyDelta d n w = Halts NilDereference w).
Proof.
  split_and!.
  - apply applyDelta_unknown_task.
  - intros td resID. apply applyDelta_unknown_resource.
  - intros td resID rs jobID. apply applyDelta_unknown_job.
Qed.

Lemma applyDelta_other_types d n w td resID rs :
  types.FindPtrOrNull (taskMap (sched w)) (sd_TaskId d) = Some td →
  ResourceIDFromString (sd_ResourceId d) = Some resID →
  types.FindPtrOrNull (resourceMap (sched w)) resID = Some rs →
  sd_Type d = SchedulingDelta_PREEMPT ∨ sd_Type d = SchedulingDelta_MIGRATE ∨
    sd_Type d = SchedulingDelta_NOOP →
  applyDelta d n w = Returns n w.
Proof.
  intros Htd Hid Hrs Hty.
  unfold applyDelta, load, Descriptor, HandleTaskEviction, HandleTaskMigration.
  run. rewrite Htd, Hid, Hrs. run.
  by destruct Hty as [-> | [-> | ->]].
Qed.

(** A delta that halts its turn halts the loop: it is not skipped. *)
Lemma ApplySchedulingDeltas_loop_halts d deltas n w h w' :
  applyDelta d n w = Halts h w' →
  ApplySchedulingDeltas_loop (d :: deltas) n w = Halts h w'.
Proof. intros Hd. simpl. run. by rewrite Hd. Qed.

Lemma applyDelta_rejects d n w :
  taskResolves w d = false ∨ resourceResolves w d = false ∨
    recognized (sd_Type d) = false →
  ∃ h, applyDelta d n w = Halts h w.
Proof.
  unfold taskResolves, resourceResolves.
  destruct (types.FindPtrOrNull (taskMap (sched w)) (sd_TaskId d))
    as [td|] eqn:Htd; [|eauto using applyDelta_unknown_task].
  destruct (ResourceIDFromString (sd_ResourceId d))
    as [resID|] eqn:Hid; [|eauto using applyDelta_unreadable_resource].
  destruct (types.FindPtrOrNull (resourceMap (sched w)) resID)
    as [rs|] eqn:Hrs; [|eauto using applyDelta_unknown_resource].
  intros [Hno | [Hno | Hty]].
  - by rewrite bool_decide_eq_false, is_Some_alt in Hno.
  - by rewrite bool_decide_eq_false, is_Some_alt in Hno.
  - destruct (sd_Type d) eqn:Hd; try done.
    eauto using applyDelta_unknown_type.
Qed.

(** C8, as the code has it. A delta whose task or resource does not resolve,
    or whose type is none of the four, halts the process on its turn, so
    that the loop does not go on to the deltas after it.  A delta whose task
    and resource resolve and whose type is one of the four is applied and
    the loop goes on, as long as, for a PLACE, the job owning the task
    resolves as well. *)
Theorem delta_halts_or_is_applied d n w :
  (taskResolves w d = false ∨ resourceResolves w d = false ∨
     recognized (sd_Type d) = false →
   is_Some (halted (applyDelta d n w)) ∧
   ∀ deltas, is_Some (halted (ApplySchedulingDeltas_loop (d :: deltas) n w))) ∧
  (taskResolves w d = true →
   resourceResolves w d = true →
   recognized (sd_Type d) = true →
   (sd_Type d = SchedulingDelta_PLACE → jobResolves w d = true) →
   is_Some (returned (applyDelta d n w))).
Proof.
  split.
  - intros Hbad. destruct (applyDelta_rejects d n w Hbad) as [h Hh].
    split; [by rewrite Hh|].
    intros deltas. by rewrite (ApplySchedulingDeltas_loop_halts _ _ _ _ _ _ Hh).
  - unfold taskResolves, resourceResolves, jobResolves.
    destruct (types.FindPtrOrNull (taskMap (sched w)) (sd_TaskId d))
      as [td|] eqn:Htd; [|by rewrite bool_decide_eq_true, is_Some_alt].
    destruct (ResourceIDFromString (sd_ResourceId d))
      as [resID|] eqn:Hid; [|done].
    destruct (types.FindPtrOrNull (resourceMap (sched w)) resID)
      as [rs|] eqn:Hrs; [|by rewrite bool_decide_eq_true, is_Some_alt].
    intros _ _ Hty Hjob. destruct (sd_Type d) eqn:Hd; try done.
    + by erewrite applyDelta_other_types by eauto.
    + specialize (Hjob eq_refl).
      destruct (JobIDFromString _) as [jobID|] eqn:Hjid; [|done].
      destruct (types.FindPtrOrNull (jobMap (sched w)) jobID)
        as [jd|] eqn:Hjd; [|by rewrite bool_decide_eq_true, is_Some_alt in Hjob].
      by rewrite (applyDelta_PLACE d n w td resID rs jobID jd).
    + by erewrite applyDelta_other_types by eauto.
    + by erewrite applyDelta_other_types by eauto.
Qed.

(** ** Job completion *)

Lemma HandleJobCompletion_unknown jobID w :
  types.FindPtrOrNull (jobMap (sched w)) jobID = None →
  HandleJobCompletion jobID w =
  Halts LogPanicf (with_gm (JobCompleted (gm (sched w)) jobID) w).
Proof. intros Hjd. unfold HandleJobCompletion. run. by rewrite Hjd. Qed.

Lemma HandleJobCompletion_known jobID w jd :
  types.FindPtrOrNull (jobMap (sched w)) jobID = Some jd →
  ∃ w', HandleJobCompletion jobID w = Returns () w' ∧
        gm (sched w') = JobCompleted (gm (sched w)) jobID ∧
        jobsToSchedule (sched w') = delete jobID (jobsToSchedule (sched w)) ∧
        runnableTasks (sched w') = delete jobID (runnableTasks (sched w)) ∧
        jobDescs (mem w') =
          <[jd := set_jd_State JobDescriptor_Completed (jobDescs (mem w) jd)]>
            (jobDescs (mem w)).
Proof.
  intros Hjd. unfold HandleJobCompletion, store_jd_State. run.
  rewrite Hjd. run. eexists. split_and!; done.
Qed.

(** C7. [HandleJobCompletion] halts exactly when the job registry gives no
    descriptor for the job.  When it gives one, the call returns, the job is
    in neither [jobsToSchedule] nor [runnableTasks], and the descriptor's
    state is Completed. *)
Theorem HandleJobCompletion_panics_iff_unknown jobID w :
  (is_Some (halted (HandleJobCompletion jobID w)) ↔
   types.FindPtrOrNull (jobMap (sched w)) jobID = None) ∧
  (jobMap (sched w) !! jobID = None →
   halted (HandleJobCompletion jobID w) = Some LogPanicf) ∧
  (∀ jd, types.FindPtrOrNull (jobMap (sched w)) jobID = Some jd →
     ∃ w', HandleJobCompletion jobID w = Returns () w' ∧
           jobsToSchedule (sched w') !! jobID = None ∧
           runnableTasks (sched w') !! jobID = None ∧
           jd_State (jobDescs (mem w') jd) = JobDescriptor_Completed).
Proof.
  split_and!.
  - destruct (types.FindPtrOrNull (jobMap (sched w)) jobID) as [jd|] eqn:Hjd.
    + destruct (HandleJobCompletion_known jobID w jd Hjd) as (w' & -> & _).
      simpl. split; [by intros [? ?]|done].
    + rewrite HandleJobCompletion_unknown by done. simpl. split; eauto.
  - intros Hno. rewrite HandleJobCompletion_unknown; [done|].
    unfold types.FindPtrOrNull. by rewrite Hno.
  - intros jd Hjd.
    destruct (HandleJobCompletion_known jobID w jd Hjd)
      as (w' & -> & _ & Hjobs & Htasks & Hmem).
    exists w'. rewrite Hjobs, Htasks, Hmem.
    rewrite !lookup_delete_eq, fn_lookup_insert. done.
Qed.

(** C10. When [HandleJobCompletion] halts because the job registry has
    nothing for the job, the graph manager has already been told that the
    job completed, while [jobsToSchedule], [runnableTasks] and the memory,
    all job descriptors with it, are as before the call. *)
Theorem HandleJobCompletion_panic_after_JobCompleted jobID w :
  types.FindPtrOrNull (jobMap (sched w)) jobID = None →
  ∃ w', HandleJobCompletion jobID w = Halts LogPanicf w' ∧
        gm (sched w') = JobCompleted (gm (sched w)) jobID ∧
        jobsToSchedule (sched w') = jobsToSchedule (sched w) ∧
        runnableTasks (sched w') = runnableTasks (sched w) ∧
        mem w' = mem w.
Proof.
  intros Hjd. rewrite HandleJobCompletion_unknown by done.
  eexists. split_and!; done.
Qed.

(** ** Resource registration *)

(** [RegisterResource] writes to one resource descriptor at most, that of
    the node it is given: the descriptors of the nodes below are not
    reached. *)
Lemma RegisterResource_writes_root_only (root : N) w w' :
  RegisterResource (Some root) w = Returns () w' →
  ∀ l, Some l ≠ rtnd_ResourceDesc (topologyNodes (mem w) root) →
       resourceDescs (mem w') l = resourceDescs (mem w) l.
Proof.
  unfold RegisterResource, RegisterResource_loop, load, store_rd_Schedulable.
  run. intros Hw l Hl.
  destruct (rtnd_ResourceDesc (topologyNodes (mem w) root)) as [rd|]; [|done].
  run. branches; simpl; rewrite ?fn_lookup_insert_ne; congruence.
Qed.

(** The roots are a set keyed by pointer: registering a root once more adds
    nothing to it. *)
Lemma RegisterResource_roots (rtnd : option N) w w' :
  RegisterResource rtnd w = Returns () w' →
  resourceRoots (sched w') = resourceRoots (sched w) ∨
  resourceRoots (sched w') = {[rtnd]} ∪ resourceRoots (sched w).
Proof.
  unfold RegisterResource, RegisterResource_loop, load, store_rd_Schedulable.
  run. branches; intros; simplify_eq; simpl; auto.
Qed.

End properties.

(** ** The binding diff of a round, with the graph manager of [flowmanager] *)

Section binding_diff.
Import flowmanager.
Context `{IDs} {S : Type} `{!Solver S graphManager}
  `{!RangeOrder graphManager S}.

(** C4, as the code has it. The loop over the mapping appends one delta for
    every pair, whatever the previous bindings say: a PLACE of the task on
    the resource when the task has no previous binding, a MIGRATE when it is
    bound to another resource, and, when it is bound to this very resource,
    a NOOP, which is appended like the others.  So the list a round returns
    is the deltas of the preempted tasks followed, pair by pair in the order
    of the mapping, by exactly that delta of each pair. *)
Theorem binding_diff_one_delta_per_pair (w : world graphManager S) :
  let s := sched w in
  let diff (taskNode resourceNode : N) :=
    let T := taskOfNode (gm s) taskNode in
    let R := resourceOfNode (gm s) resourceNode in
    mkSchedulingDelta
      (match taskBindings s !! T with
       | None => SchedulingDelta_PLACE
       | Some bound =>
           if decide (ResourceIDFromString R = Some bound)
           then SchedulingDelta_NOOP
           else SchedulingDelta_MIGRATE
       end) T R in
  (∀ deltas taskNode resourceNode,
     bindingStep s deltas (taskNode, resourceNode)
     = deltas ++ [diff taskNode resourceNode]) ∧
  (∀ w' deltas numScheduled,
     RunSchedulingIteration w = Returns (deltas, numScheduled) w' →
     let taskMappings := (Solve (solver s) (gm s)).1 in
     let preempted :=
       SchedulingDeltasForPreemptedTasks (gm s) taskMappings (resourceMap s) in
     deltas = preempted ++ map (λ e, diff e.1 e.2) taskMappings ∧
     length deltas = (length preempted + length taskMappings)%nat ∧
     ∀ (k : nat) taskNode resourceNode,
       taskMappings !! k = Some (taskNode, resourceNode) →
       deltas !! (length preempted + k)%nat
       = Some (diff taskNode resourceNode)).
Proof.
  assert (∀ taskNode resourceNode,
            NodeBindingToSchedulingDelta (gm (sched w)) taskNode resourceNode
              (taskBindings (sched w))
            = mkSchedulingDelta
                (match taskBindings (sched w)
                         !! taskOfNode (gm (sched w)) taskNode with
                 | None => SchedulingDelta_PLACE
                 | Some bound =>
                     if decide (ResourceIDFromString
                                  (resourceOfNode (gm (sched w)) resourceNode)
                                = Some bound)
                     then SchedulingDelta_NOOP
                     else SchedulingDelta_MIGRATE
                 end)
                (taskOfNode (gm (sched w)) taskNode)
                (resourceOfNode (gm (sched w)) resourceNode)) as Hdiff.
  { intros taskNode resourceNode. simpl.
    unfold graphManager_NodeBindingToSchedulingDelta.
    destruct (taskBindings (sched w) !! _) as [bound|]; [|done].
    by case_decide. }
  simpl. split.
  - intros deltas taskNode resourceNode. unfold bindingStep.
    by rewrite Hdiff.
  - intros w' deltas numScheduled. rewrite RunSchedulingIteration_unfold.
    simpl. destruct (ApplySchedulingDeltas _ _); [|done].
    intros [= <- _ _]. rewrite foldl_bindingStep.
    assert (map (λ e : N * N,
                   NodeBindingToSchedulingDelta (gm (sched w)) e.1 e.2
                     (taskBindings (sched w)))
                (Solve (solver (sched w)) (gm (sched w))).1
            = map (λ e : N * N, _) (Solve (solver (sched w)) (gm (sched w))).1)
      as -> by (apply map_ext; intros e; apply Hdiff).
    split_and!.
    + done.
    + by rewrite length_app, length_map.
    + intros k taskNode resourceNode Hk.
      rewrite lookup_app_r by lia.
      replace (_ + k - _)%nat with k by lia.
      by rewrite list_lookup_fmap, Hk.
Qed.

End binding_diff.

(** ** The end-to-end run *)

Section scenario.
Import flowmanager placement runtime Scenario.

(** The part of registration that works: a PU handed to [RegisterResource]
    itself is marked. *)
Example RegisterResource_marks_a_PU_root :
  rd_Schedulable
    (resourceDescs (mem (final (RegisterResource (Some rtnd_P1) world0))) rd_P1)
  = true.
Proof. reflexivity. Qed.

(** C1, on the end-to-end run. Round 1 returns the two PLACE deltas and the
    count 2 and makes J1 Running, and [taskBindings] is still empty after
    it: T1 and T2 have been placed and neither is in the map. *)
Theorem round1_places_but_taskBindings_stays_empty :
  returned (round1 world0) =
    Some ([mkSchedulingDelta SchedulingDelta_PLACE T1 "P1";
           mkSchedulingDelta SchedulingDelta_PLACE T2 "P2"], 2) ∧
  jd_State (jobDescs (mem (final (round1 world0))) jd_J1)
    = JobDescriptor_Running ∧
  taskBindings (sched (final (round1 world0))) = ∅ ∧
  taskBindings (sched (final (round1 world0))) ≠ {[ T1 := 1%N; T2 := 2%N ]}.
Proof.
  split_and!; [reflexivity..|].
  intros Heq. apply (f_equal (λ m : gmap N N, m !! T1)) in Heq.
  vm_compute in Heq. discriminate.
Qed.

(** C2, on the end-to-end run. Registering the machine M1 returns; P1 is a
    node of M1's subtree and a PU, and it is not schedulable afterwards: the
    loop takes M1 off the queue and puts none of its children on. *)
Theorem RegisterResource_leaves_child_PU_unschedulable :
  let after := final (RegisterResource (Some rtnd_M1) world0) in
  returned (RegisterResource (Some rtnd_M1) world0) = Some () ∧
  in_subtree (mem world0) (Some rtnd_M1) (Some rtnd_P1) ∧
  rtnd_ResourceDesc (topologyNodes (mem after) rtnd_P1) = Some rd_P1 ∧
  rd_Type (resourceDescs (mem after) rd_P1) = ResourceDescriptor_ResourcePu ∧
  rd_Schedulable (resourceDescs (mem after) rd_P1) = false ∧
  resourceRoots (sched after) = {[ Some rtnd_M1 ]} ∧
  let again := final (RegisterResource (Some rtnd_M1) after) in
  rd_Schedulable (resourceDescs (mem again) rd_P1) = false ∧
  resourceRoots (sched again) = {[ Some rtnd_M1 ]}.
Proof.
  cbv zeta. split_and!; try reflexivity.
  eapply (in_subtree_child _ _ rtnd_M1); [constructor|].
  vm_compute. constructor.
Qed.

(** *** The theorems above at work on the run *)

(** A round that preempts T1 from P1 and places T3 there: the PREEMPT is at
    index 0, the PLACE at index 1. *)
Lemma preemption_deltas_precede_binding_deltas_witness :
  let preempt := mkSchedulingDelta SchedulingDelta_PREEMPT T1 "P1" in
  let place := mkSchedulingDelta SchedulingDelta_PLACE T3 "P1" in
  let after := final (RunSchedulingIteration world_preempting) in
  RunSchedulingIteration world_preempting = Returns ([preempt; place], 1) after ∧
  [preempt; place] !! 0%nat = Some preempt ∧
  [preempt; place] !! 1%nat = Some place ∧
  (0 < 1)%nat.
Proof.
  intros preempt place after.
  assert (RunSchedulingIteration world_preempting
          = Returns ([preempt; place], 1) after) as Hrun by reflexivity.
  split; [exact Hrun|].
  destruct (preemption_deltas_precede_binding_deltas _ _ _ _ Hrun)
    as (_ & _ & Hindex).
  exact (Hindex 0%nat 0%nat preempt (103%N, 201%N) eq_refl eq_refl).
Defined.

(** The same round counts one placement among its two deltas. *)
Lemma RunSchedulingIteration_counts_PLACE_witness :
  let preempt := mkSchedulingDelta SchedulingDelta_PREEMPT T1 "P1" in
  let place := mkSchedulingDelta SchedulingDelta_PLACE T3 "P1" in
  let after := final (RunSchedulingIteration world_preempting) in
  RunSchedulingIteration world_preempting = Returns ([preempt; place], 1) after ∧
  1 = countPlace [preempt; place].
Proof.
  intros preempt place after.
  assert (RunSchedulingIteration world_preempting
          = Returns ([preempt; place], 1) after) as Hrun by reflexivity.
  split; [exact Hrun|].
  exact (RunSchedulingIteration_counts_PLACE _ _ _ _ Hrun).
Defined.

(** Placing T1 on P1 while J1 is not yet Running, and once more where J1
    is Running already. *)
Lemma PLACE_makes_job_Running_witness :
  (jd_State (jobDescs (mem world0) jd_J1) ≠ JobDescriptor_Running ∧
   ∃ w', applyDelta place_T1_P1 0 world0 = Returns (0 + 1) w' ∧
         jd_State (jobDescs (mem w') jd_J1) = JobDescriptor_Running ∧
         (jd_State (jobDescs (mem world0) jd_J1) ≠ JobDescriptor_Running →
            ∀ l, l ≠ jd_J1 → jobDescs (mem w') l = jobDescs (mem world0) l) ∧
         (jd_State (jobDescs (mem world0) jd_J1) = JobDescriptor_Running →
            w' = world0)) ∧
  (jd_State (jobDescs (mem world_running) jd_J1) = JobDescriptor_Running ∧
   applyDelta place_T1_P1 0 world_running = Returns 1 world_running).
Proof.
  split; (split; [first [discriminate | reflexivity]|]).
  - exact (PLACE_makes_job_Running place_T1_P1 0 world0 td_T1 1%N rs_P1 J1
             jd_J1 eq_refl eq_refl eq_refl eq_refl eq_refl eq_refl).
  - pose proof (PLACE_makes_job_Running place_T1_P1 0 world_running td_T1 1%N
                  rs_P1 J1 jd_J1) as Hplace.
    destruct Hplace as (w' & Hrun & _ & _ & Hsame); [reflexivity..|].
    rewrite Hrun. f_equal. exact (Hsame eq_refl).
Defined.

(** Completing J1, which the job registry knows, and completing it where the
    registry has been emptied. *)
Lemma HandleJobCompletion_panics_iff_unknown_witness :
  (∃ w', HandleJobCompletion J1 world0 = Returns () w' ∧
         jobsToSchedule (sched w') !! J1 = None ∧
         runnableTasks (sched w') !! J1 = None ∧
         jd_State (jobDescs (mem w') jd_J1) = JobDescriptor_Completed) ∧
  halted (HandleJobCompletion J1 (forget_jobs world0)) = Some LogPanicf.
Proof.
  split.
  - exact (proj2 (proj2 (HandleJobCompletion_panics_iff_unknown J1 world0))
             jd_J1 eq_refl).
  - exact (proj1 (proj2 (HandleJobCompletion_panics_iff_unknown J1
                           (forget_jobs world0))) eq_refl).
Defined.

(** A delta for a task the registry does not know halts the loop; the PLACE
    of T1 on P1 is applied. *)
Lemma delta_halts_or_is_applied_witness :
  let unknown := mkSchedulingDelta SchedulingDelta_NOOP 9%N "P1" in
  is_Some (halted (ApplySchedulingDeltas_loop [unknown; place_T1_P1] 0 world0)) ∧
  is_Some (returned (applyDelta place_T1_P1 0 world0)).
Proof.
  intros unknown. split.
  - exact (proj2 (proj1 (delta_halts_or_is_applied unknown 0 world0)
                    (or_introl eq_refl)) [place_T1_P1]).
  - exact (proj2 (delta_halts_or_is_applied place_T1_P1 0 world0)
             eq_refl eq_refl eq_refl (λ _, eq_refl)).
Defined.

(** The PLACE of T1 on P1 with J1 missing from the job registry. *)
Lemma PLACE_unknown_job_dereferences_nil_witness :
  types.FindPtrOrNull (jobMap (sched (forget_jobs world0))) J1 = None ∧
  applyDelta place_T1_P1 0 (forget_jobs world0)
    = Halts NilDereference (forget_jobs world0).
Proof.
  split; [reflexivity|].
  exact (proj2 (proj2 (PLACE_unknown_job_dereferences_nil place_T1_P1 0
                         (forget_jobs world0)))
           td_T1 1%N rs_P1 J1 eq_refl eq_refl eq_refl eq_refl eq_refl eq_refl).
Defined.

(** Completing J1 with J1 missing from the job registry: the graph manager
    has the call on record when the process halts. *)
Lemma HandleJobCompletion_panic_after_JobCompleted_witness :
  types.FindPtrOrNull (jobMap (sched (forget_jobs world0))) J1 = None ∧
  calls (JobCompleted (gm (sched (forget_jobs world0))) J1)
    = [CallJobCompleted J1] ∧
  ∃ w', HandleJobCompletion J1 (forget_jobs world0) = Halts LogPanicf w' ∧
        gm (sched w') = JobCompleted (gm (sched (forget_jobs world0))) J1 ∧
        jobsToSchedule (sched w') = jobsToSchedule (sched (forget_jobs world0)) ∧
        runnableTasks (sched w') = runnableTasks (sched (forget_jobs world0)) ∧
        mem w' = mem (forget_jobs world0).
Proof.
  split; [reflexivity|]. split; [reflexivity|].
  exact (HandleJobCompletion_panic_after_JobCompleted J1 (forget_jobs world0)
           eq_refl).
Defined.

(** A round with a pair of each kind: T1 stays on P1, T2 moves from P1 to
    P2, T3 is new.  The list has the NOOP, the MIGRATE and the PLACE, in the
    order of the mapping. *)
Lemma binding_diff_one_delta_per_pair_witness :
  let noop := mkSchedulingDelta SchedulingDelta_NOOP T1 "P1" in
  let migrate := mkSchedulingDelta SchedulingDelta_MIGRATE T2 "P2" in
  let place := mkSchedulingDelta SchedulingDelta_PLACE T3 "P1" in
  let after := final (RunSchedulingIteration Examples.world_mixed) in
  RunSchedulingIteration Examples.world_mixed
    = Returns ([noop; migrate; place], 1) after ∧
  [noop; migrate; place] !! 0%nat = Some noop ∧
  [noop; migrate; place] !! 1%nat = Some migrate ∧
  [noop; migrate; place] !! 2%nat = Some place ∧
  length [noop; migrate; place] = (0 + 3)%nat.
Proof.
  intros noop migrate place after.
  assert (RunSchedulingIteration Examples.world_mixed
          = Returns ([noop; migrate; place], 1) after) as Hrun by reflexivity.
  split; [exact Hrun|].
  destruct (proj2 (binding_diff_one_delta_per_pair Examples.world_mixed)
              _ _ _ Hrun) as (_ & Hlength & Hindex).
  split_and!.
  - exact (Hindex 0%nat 101%N 201%N eq_refl).
  - exact (Hindex 1%nat 102%N 202%N eq_refl).
  - exact (Hindex 2%nat 103%N 201%N eq_refl).
  - exact Hlength.
Defined.

(** *** Where the code parts with the stated behaviour *)

(** C4 as stated fails. With T1 bound to P1 and the solver assigning T1 to
    P1 again, the loop body does append a delta for the pair: the list grows
    from empty to one NOOP delta. *)
Lemma unchanged_binding_contributes_a_delta :
  ¬ (∀ (s : scheduler graphManager scripted) deltas taskNode resourceNode bound,
       taskBindings s !! taskOfNode (gm s) taskNode = Some bound →
       ResourceIDFromString (resourceOfNode (gm s) resourceNode) = Some bound →
       bindingStep s deltas (taskNode, resourceNode) = deltas).
Proof.
  intros Hclaim.
  specialize (Hclaim (sched world_rebound) [] 101%N 201%N 1%N eq_refl eq_refl).
  discriminate Hclaim.
Qed.

(** C8 as stated fails. The PLACE of T1 on P1 has a task and a resource that
    resolve and a type the code knows, and with J1 missing from the job
    registry applying it halts the process. *)
Lemma resolved_recognized_delta_can_halt :
  ¬ (∀ (w : world graphManager scripted) d n,
       taskResolves w d = true →
       resourceResolves w d = true →
       recognized (sd_Type d) = true →
       halted (applyDelta d n w) = None).
Proof.
  intros Hclaim.
  specialize (Hclaim (forget_jobs world0) place_T1_P1 0
                eq_refl eq_refl eq_refl).
  discriminate Hclaim.
Qed.

End scenario.

(** * Further properties of the registries and of the scheduler *)

(** ** The registries *)

Section registries.
Implicit Types (m : gmap N (option N)) (k : N) (val dV : option N).

(** X1. [InsertOrUpdate] reports an insertion exactly when the key was not
    there; afterwards the key is there and looks up to the new pointer, and
    every other key is as before. *)
Theorem InsertOrUpdate_then_lookup m k val :
  (types.InsertOrUpdate m k val).1 = negb (types.ContainsKey m k) ∧
  ∀ k', types.FindPtrOrNull (types.InsertOrUpdate m k val).2 k' =
          (if decide (k' = k) then val else types.FindPtrOrNull m k') ∧
        types.ContainsKey (types.InsertOrUpdate m k val).2 k' =
          (if decide (k' = k) then true else types.ContainsKey m k').
Proof.
  unfold types.InsertOrUpdate, types.ContainsKey, types.FindPtrOrNull. simpl.
  split.
  - destruct (m !! k) eqn:Hk; repeat case_bool_decide; naive_solver.
  - intros k'. case_decide as Hk'.
    + subst. rewrite lookup_insert_eq. split; [done|].
      by apply bool_decide_eq_true.
    + by rewrite lookup_insert_ne.
Qed.

(** X2. [InsertIfNotPresent] never replaces an entry: it reports an
    insertion exactly when the key was not there, a key that was there
    (also one mapped to [nil]) keeps what it had, and every other key is as
    before. *)
Theorem InsertIfNotPresent_never_replaces m k val :
  (types.InsertIfNotPresent m k val).1 = negb (types.ContainsKey m k) ∧
  ∀ k', types.FindPtrOrNull (types.InsertIfNotPresent m k val).2 k' =
          (if decide (k' = k)
           then (if types.ContainsKey m k then types.FindPtrOrNull m k
                 else val)
           else types.FindPtrOrNull m k') ∧
        types.ContainsKey (types.InsertIfNotPresent m k val).2 k' =
          (if decide (k' = k) then true else types.ContainsKey m k').
Proof.
  unfold types.InsertIfNotPresent, types.ContainsKey, types.FindPtrOrNull.
  destruct (m !! k) as [old|] eqn:Hk; simpl; (split; [done|]); intros k'.
  - case_decide; subst; rewrite ?Hk; [|done].
    split; [done|]. apply bool_decide_eq_true. eauto.
  - case_decide; subst.
    + rewrite lookup_insert_eq. split; [done|]. by apply bool_decide_eq_true.
    + by rewrite lookup_insert_ne.
Qed.

(** X3. [FindWithDefault] gives the default only for a key that is not in
    the map: for a key that is mapped to [nil] it gives [nil], as
    [FindPtrOrNull] does, which gives [nil] both for such a key and for a
    missing one. *)
Theorem FindWithDefault_default_only_for_missing_key m k dV :
  types.FindWithDefault m k dV =
    (if types.ContainsKey m k then types.FindPtrOrNull m k else dV) ∧
  (types.FindPtrOrNull m k = None ↔
   types.ContainsKey m k = false ∨ m !! k = Some None).
Proof.
  unfold types.FindWithDefault, types.FindPtrOrNull, types.ContainsKey.
  destruct (m !! k) as [[v|]|] eqn:Hk; simpl; (split; [done|]).
  - split; [done|]. by intros [?|?].
  - split; eauto.
  - split; eauto.
Qed.

(** X4. The two insertions composed: after [InsertOrUpdate] under a key,
    [InsertIfNotPresent] under it inserts nothing and leaves the map, and so
    does a second [InsertOrUpdate] of the same pointer; [InsertOrUpdate]
    after [InsertIfNotPresent] wins whatever the map held. *)
Theorem insertions_compose m k val val' :
  types.InsertIfNotPresent (types.InsertOrUpdate m k val).2 k val' =
    (false, (types.InsertOrUpdate m k val).2) ∧
  types.InsertOrUpdate (types.InsertOrUpdate m k val).2 k val =
    (false, (types.InsertOrUpdate m k val).2) ∧
  types.FindPtrOrNull
    (types.InsertOrUpdate (types.InsertIfNotPresent m k val).2 k val').2 k
    = val'.
Proof.
  unfold types.InsertIfNotPresent, types.InsertOrUpdate, types.FindPtrOrNull.
  simpl. rewrite !lookup_insert_eq. split_and!.
  - done.
  - by rewrite insert_insert_eq.
  - done.
Qed.

End registries.

(** ** [FindCopy] *)

Section find_copy.
Import Scenario Examples.
Implicit Types (m : gmap N (option N)) (k : N) (val : option N) (mem : memory).

(** X5. [JobMap.FindCopy] returns whether the key is in the map.  It halts
    in one case only, a [nil] buffer for a key that holds a descriptor, and
    with a [nil] buffer it writes nothing, however it ends. *)
Theorem JobMap_FindCopy_result m k val mem :
  let nil_buffer :=
    bool_decide (val = None ∧ types.FindPtrOrNull m k ≠ None) in
  halted (JobMap_FindCopy m k val mem) =
    (if nil_buffer then Some NilDereference else None) ∧
  returned (JobMap_FindCopy m k val mem) =
    (if nil_buffer then None else Some (types.ContainsKey m k)) ∧
  final (JobMap_FindCopy m k None mem) = mem.
Proof.
  unfold JobMap_FindCopy, FindCopy, copy_object, types.FindPtrOrNull,
    types.ContainsKey.
  destruct (m !! k) as [[v|]|] eqn:Hk, val as [b|]; simpl;
    repeat case_bool_decide; naive_solver.
Qed.

(** X6. For a key that holds a descriptor, [JobMap.FindCopy] with a buffer
    returns true, and the buffer then holds what the map's descriptor held;
    no other job descriptor, and nothing else in memory, has changed. *)
Theorem JobMap_FindCopy_copies m k v b mem :
  m !! k = Some (Some v) →
  ∃ mem', JobMap_FindCopy m k (Some b) mem = Returns true mem' ∧
          jobDescs mem' b = jobDescs mem v ∧
          (∀ l, l ≠ b → jobDescs mem' l = jobDescs mem l) ∧
          taskDescs mem' = taskDescs mem ∧
          resourceDescs mem' = resourceDescs mem ∧
          resourceStatuses mem' = resourceStatuses mem ∧
          topologyNodes mem' = topologyNodes mem.
Proof.
  intros Hk. unfold JobMap_FindCopy, FindCopy, copy_object. rewrite Hk. simpl.
  eexists. split; [reflexivity|]. simpl. split_and!; try done.
  - by rewrite fn_lookup_insert.
  - intros l Hl. by rewrite fn_lookup_insert_ne.
Qed.

Lemma JobMap_FindCopy_copies_witness :
  registry12 !! 1%N = Some (Some jd_J1) ∧
  ∃ mem', JobMap_FindCopy registry12 1%N (Some 11%N) memory_two_jobs
            = Returns true mem' ∧
          jobDescs mem' 11%N = mkJobDescriptor "J1" JobDescriptor_Running ∧
          jobDescs mem' jd_J1 = jobDescs memory_two_jobs jd_J1.
Proof.
  split; [reflexivity|].
  destruct (JobMap_FindCopy_copies registry12 1%N jd_J1 11%N memory_two_jobs
              eq_refl) as (mem' & Hrun & Hcopy & Hothers & _).
  exists mem'. split; [exact Hrun|]. split; [exact Hcopy|].
  apply Hothers. discriminate.
Defined.

(** X7. For a key that is missing, and for a key that is mapped to [nil],
    [JobMap.FindCopy] returns whether the key is there and leaves the memory,
    the buffer with it, as it was: a true result does not say that the
    buffer was filled. *)
Theorem JobMap_FindCopy_without_descriptor m k val mem :
  types.FindPtrOrNull m k = None →
  JobMap_FindCopy m k val mem = Returns (types.ContainsKey m k) mem.
Proof.
  unfold JobMap_FindCopy, FindCopy, copy_object, types.FindPtrOrNull,
    types.ContainsKey.
  destruct (m !! k) as [[v|]|] eqn:Hk; simpl; [done|done..].
Qed.

Lemma JobMap_FindCopy_without_descriptor_witness :
  types.FindPtrOrNull registry12 2%N = None ∧
  JobMap_FindCopy registry12 2%N (Some 11%N) memory_two_jobs
    = Returns true memory_two_jobs.
Proof.
  split; [reflexivity|].
  exact (JobMap_FindCopy_without_descriptor registry12 2%N (Some 11%N)
           memory_two_jobs eq_refl).
Defined.

End find_copy.

(** ** Jobs: [AddJob] and [HandleJobCompletion] *)

Section jobs.
Context `{IDs} {G S : Type} `{!GraphManager G} `{!Solver S G}.
Implicit Types (w : world G S) (jobID : N).

(** X8. [AddJob] of a descriptor whose [Uuid] is a job identifier returns
    with the descriptor under that identifier in [jobsToSchedule]; the other
    entries of the set, the job registry, [runnableTasks], the graph manager
    and the memory are as before: the job is not registered and the graph
    manager is not told. *)
Theorem AddJob_adds_to_jobsToSchedule w l jobID :
  JobIDFromString (jd_Uuid (jobDescs (mem w) l)) = Some jobID →
  ∃ w', AddJob (Some l) w = Returns () w' ∧
        jobsToSchedule (sched w') !! jobID = Some (Some l) ∧
        (∀ j, j ≠ jobID →
              jobsToSchedule (sched w') !! j = jobsToSchedule (sched w) !! j) ∧
        jobMap (sched w') = jobMap (sched w) ∧
        runnableTasks (sched w') = runnableTasks (sched w) ∧
        gm (sched w') = gm (sched w) ∧
        mem w' = mem w.
Proof.
  intros Hid. unfold AddJob, load. run. rewrite Hid. run.
  eexists. split; [done|]. simpl. split_and!; try done.
  - by rewrite lookup_insert_eq.
  - intros j Hj. by rewrite lookup_insert_ne.
Qed.

(** X9. [AddJob] halts exactly on a [nil] descriptor and on a descriptor
    whose [Uuid] is no job identifier, and then it has changed nothing. *)
Theorem AddJob_halts_unchanged w (jd : option N) :
  (is_Some (halted (AddJob jd w)) ↔
   jd = None ∨
   ∃ l, jd = Some l ∧ JobIDFromString (jd_Uuid (jobDescs (mem w) l)) = None) ∧
  (∀ h w', AddJob jd w = Halts h w' → w' = w).
Proof.
  unfold AddJob, load. run. destruct jd as [l|]; run.
  - destruct (JobIDFromString _) eqn:Hid; run.
    + split; [|done]. split; [by intros [? ?]|]. intros [?|(l' & ? & ?)]; [done|].
      by simplify_eq.
    + split; [|by intros ?? [= _ <-]]. split; eauto.
  - split; [|by intros ?? [= _ <-]]. split; eauto.
Qed.

(** X10. [AddJob] does not make the job known to the job registry: on a
    scheduler whose registry has nothing for the job, adding it and then
    completing it halts in [HandleJobCompletion], with the job still in
    [jobsToSchedule]. *)
Theorem AddJob_then_completion_of_unregistered_job w l jobID :
  JobIDFromString (jd_Uuid (jobDescs (mem w) l)) = Some jobID →
  types.FindPtrOrNull (jobMap (sched w)) jobID = None →
  ∃ w', (AddJob (Some l);; HandleJobCompletion jobID) w = Halts LogPanicf w' ∧
        jobsToSchedule (sched w') !! jobID = Some (Some l).
Proof.
  intros Hid Hjd. unfold AddJob, HandleJobCompletion, load. run.
  rewrite Hid. run. rewrite Hjd. run.
  eexists. split; [done|]. simpl. by rewrite lookup_insert_eq.
Qed.

(** X11. Adding a second descriptor with the same identifier replaces the
    first in [jobsToSchedule]. *)
Theorem AddJob_replaces_same_identifier w l1 l2 jobID :
  JobIDFromString (jd_Uuid (jobDescs (mem w) l1)) = Some jobID →
  JobIDFromString (jd_Uuid (jobDescs (mem w) l2)) = Some jobID →
  ∃ w', (AddJob (Some l1);; AddJob (Some l2)) w = Returns () w' ∧
        jobsToSchedule (sched w') !! jobID = Some (Some l2).
Proof.
  intros Hid1 Hid2. unfold AddJob, load. run. rewrite Hid1. run.
  rewrite Hid2. run. eexists. split; [done|]. simpl.
  by rewrite lookup_insert_eq.
Qed.

Lemma HandleJobCompletion_jobMap w jobID :
  jobMap (sched (final (HandleJobCompletion jobID w))) = jobMap (sched w).
Proof.
  unfold HandleJobCompletion, store_jd_State. run.
  by destruct (types.FindPtrOrNull (jobMap (sched w)) jobID); run.
Qed.

(** X12. [HandleJobCompletion] leaves the job in the job registry, so that
    completing the same job again returns as well: the second call finds the
    two sets and the job descriptors as the first left them, and the graph
    manager is told a second time. *)
Theorem HandleJobCompletion_again w jobID jd :
  types.FindPtrOrNull (jobMap (sched w)) jobID = Some jd →
  ∃ w1 w2, HandleJobCompletion jobID w = Returns () w1 ∧
           HandleJobCompletion jobID w1 = Returns () w2 ∧
           jobMap (sched w2) = jobMap (sched w) ∧
           jobsToSchedule (sched w2) = jobsToSchedule (sched w1) ∧
           runnableTasks (sched w2) = runnableTasks (sched w1) ∧
           (∀ l, jobDescs (mem w2) l = jobDescs (mem w1) l) ∧
           gm (sched w2) =
             JobCompleted (JobCompleted (gm (sched w)) jobID) jobID.
Proof.
  intros Hjd.
  pose proof (HandleJobCompletion_jobMap w jobID) as Hmap.
  destruct (HandleJobCompletion_known jobID w jd Hjd)
    as (w1 & Hrun1 & Hgm1 & Hjobs1 & Htasks1 & Hmem1).
  rewrite Hrun1 in Hmap. simpl in Hmap.
  assert (types.FindPtrOrNull (jobMap (sched w1)) jobID = Some jd) as Hjd1
    by (by rewrite Hmap).
  pose proof (HandleJobCompletion_jobMap w1 jobID) as Hmap2.
  destruct (HandleJobCompletion_known jobID w1 jd Hjd1)
    as (w2 & Hrun2 & Hgm2 & Hjobs2 & Htasks2 & Hmem2).
  rewrite Hrun2 in Hmap2. simpl in Hmap2.
  exists w1, w2. split_and!; try done.
  - by rewrite Hmap2.
  - rewrite Hjobs2, Hjobs1. apply delete_delete_eq.
  - rewrite Htasks2, Htasks1. apply delete_delete_eq.
  - intros l. rewrite Hmem2, Hmem1. unfold insert, fn_insert.
    by repeat (case_decide; simpl).
  - by rewrite Hgm2, Hgm1.
Qed.

(** X13. Whichever way [HandleJobCompletion] ends, it leaves the three
    registries, the roots, the bindings and the solver alone; in the two
    sets it touches no entry but the job's; and in memory it writes to job
    descriptors only, never to a [Uuid], and to no descriptor but the one
    the job registry has for the job. *)
Theorem HandleJobCompletion_frame w jobID :
  let w' := final (HandleJobCompletion jobID w) in
  resourceMap (sched w') = resourceMap (sched w) ∧
  jobMap (sched w') = jobMap (sched w) ∧
  taskMap (sched w') = taskMap (sched w) ∧
  resourceRoots (sched w') = resourceRoots (sched w) ∧
  taskBindings (sched w') = taskBindings (sched w) ∧
  solver (sched w') = solver (sched w) ∧
  delete jobID (jobsToSchedule (sched w')) =
    delete jobID (jobsToSchedule (sched w)) ∧
  delete jobID (runnableTasks (sched w')) =
    delete jobID (runnableTasks (sched w)) ∧
  taskDescs (mem w') = taskDescs (mem w) ∧
  resourceDescs (mem w') = resourceDescs (mem w) ∧
  resourceStatuses (mem w') = resourceStatuses (mem w) ∧
  topologyNodes (mem w') = topologyNodes (mem w) ∧
  ∀ l, jd_Uuid (jobDescs (mem w') l) = jd_Uuid (jobDescs (mem w) l) ∧
       (jobDescs (mem w') l = jobDescs (mem w) l ∨
        types.FindPtrOrNull (jobMap (sched w)) jobID = Some l).
Proof.
  unfold HandleJobCompletion, store_jd_State. run.
  destruct (types.FindPtrOrNull (jobMap (sched w)) jobID) as [jd|]; run.
  - split_and!; try done.
    + apply delete_delete_eq.
    + apply delete_delete_eq.
    + intros l. unfold insert, fn_insert.
      case_decide; subst; simpl; eauto.
  - split_and!; try done. eauto.
Qed.

End jobs.

(** ** Resources: [RegisterResource] *)

Section resources.
Context `{IDs} {G S : Type} `{!GraphManager G} `{!Solver S G}.
Implicit Types (w : world G S) (l rd : N).

(** What a registration that returns has done. *)
Lemma RegisterResource_known w l rd :
  rtnd_ResourceDesc (topologyNodes (mem w) l) = Some rd →
  ∃ w', RegisterResource (Some l) w = Returns () w' ∧
        resourceDescs (mem w') =
          (if decide (rd_Type (resourceDescs (mem w) rd)
                      = ResourceDescriptor_ResourcePu)
           then <[rd := set_rd_Schedulable true (resourceDescs (mem w) rd)]>
                  (resourceDescs (mem w))
           else resourceDescs (mem w)) ∧
        jobDescs (mem w') = jobDescs (mem w) ∧
        taskDescs (mem w') = taskDescs (mem w) ∧
        resourceStatuses (mem w') = resourceStatuses (mem w) ∧
        topologyNodes (mem w') = topologyNodes (mem w) ∧
        resourceRoots (sched w') =
          (if decide (rtnd_ParentId (topologyNodes (mem w) l) = "")
           then {[Some l]} ∪ resourceRoots (sched w)
           else resourceRoots (sched w)) ∧
        gm (sched w') = AddResourceTopology (gm (sched w)) (mem w') (Some l) ∧
        resourceMap (sched w') = resourceMap (sched w) ∧
        jobMap (sched w') = jobMap (sched w) ∧
        taskMap (sched w') = taskMap (sched w) ∧
        taskBindings (sched w') = taskBindings (sched w) ∧
        jobsToSchedule (sched w') = jobsToSchedule (sched w) ∧
        runnableTasks (sched w') = runnableTasks (sched w) ∧
        solver (sched w') = solver (sched w).
Proof.
  intros Hrd.
  unfold RegisterResource, RegisterResource_loop, load, store_rd_Schedulable.
  run. rewrite Hrd. run.
  destruct (decide (rd_Type (resourceDescs (mem w) rd)
                    = ResourceDescriptor_ResourcePu)); run;
    destruct (decide (rtnd_ParentId (topologyNodes (mem w) l) = "")); run;
    eexists; split_and!; done.
Qed.

(** X14. [RegisterResource] returns exactly when it is given a node, not
    [nil], whose [ResourceDesc] is not [nil]; otherwise it halts on the
    [nil] it dereferences, having changed nothing and told the graph manager
    nothing. *)
Theorem RegisterResource_returns_iff w (rtnd : option N) :
  (is_Some (returned (RegisterResource rtnd w)) ↔
   ∃ l rd, rtnd = Some l ∧
           rtnd_ResourceDesc (topologyNodes (mem w) l) = Some rd) ∧
  (is_Some (returned (RegisterResource rtnd w)) ∨
   RegisterResource rtnd w = Halts NilDereference w).
Proof.
  destruct rtnd as [l|].
  - destruct (rtnd_ResourceDesc (topologyNodes (mem w) l)) as [rd|] eqn:Hrd.
    + destruct (RegisterResource_known w l rd Hrd) as (w' & -> & _).
      simpl. split; [|eauto]. split; eauto.
    + assert (RegisterResource (Some l) w = Halts NilDereference w) as ->.
      { unfold RegisterResource, RegisterResource_loop, load. run.
        rewrite Hrd. by run. }
      simpl. split; [|eauto]. split; [by intros [? ?]|].
      intros (l' & rd & [= <-] & Hsome). congruence.
  - assert (RegisterResource None w = Halts NilDereference w) as -> by done.
    simpl. split; [|eauto]. split; [by intros [? ?]|].
    intros (l' & rd & Hnil & _). discriminate Hnil.
Qed.

(** X15. A registration that returns sets the schedulable flag of the given
    node's descriptor when that is a PU, and changes no other flag: no flag
    is ever cleared, no type is changed, and the rest of the memory, the
    topology with it, is as before. *)
Theorem RegisterResource_marks_given_node w l rd :
  rtnd_ResourceDesc (topologyNodes (mem w) l) = Some rd →
  ∃ w', RegisterResource (Some l) w = Returns () w' ∧
        (∀ r, rd_Type (resourceDescs (mem w') r)
                = rd_Type (resourceDescs (mem w) r) ∧
              rd_Schedulable (resourceDescs (mem w') r) =
                rd_Schedulable (resourceDescs (mem w) r)
                || bool_decide (r = rd ∧
                                rd_Type (resourceDescs (mem w) rd)
                                = ResourceDescriptor_ResourcePu)) ∧
        jobDescs (mem w') = jobDescs (mem w) ∧
        taskDescs (mem w') = taskDescs (mem w) ∧
        resourceStatuses (mem w') = resourceStatuses (mem w) ∧
        topologyNodes (mem w') = topologyNodes (mem w).
Proof.
  intros Hrd.
  destruct (RegisterResource_known w l rd Hrd)
    as (w' & Hrun & Hdescs & ? & ? & ? & ? & _).
  exists w'. split_and!; try done.
  intros r. rewrite Hdescs.
  destruct (decide (rd_Type (resourceDescs (mem w) rd)
                    = ResourceDescriptor_ResourcePu)) as [Hpu|Hpu].
  - unfold insert, fn_insert. case_decide; subst; simpl.
    + rewrite bool_decide_eq_true_2 by done. by rewrite orb_true_r.
    + rewrite bool_decide_eq_false_2 by (by intros [? _]).
      by rewrite orb_false_r.
  - rewrite bool_decide_eq_false_2 by (by intros [_ ?]).
    by rewrite orb_false_r.
Qed.

(** X16. A registration that returns adds the node to the roots exactly when
    its [ParentId] is empty, and hands the node to the graph manager
    together with the memory as it is after the marking; the registries, the
    bindings, the two sets of pending work and the solver are as before. *)
Theorem RegisterResource_roots_and_graph_manager w l rd :
  rtnd_ResourceDesc (topologyNodes (mem w) l) = Some rd →
  ∃ w', RegisterResource (Some l) w = Returns () w' ∧
        resourceRoots (sched w') =
          (if decide (rtnd_ParentId (topologyNodes (mem w) l) = "")
           then {[Some l]} ∪ resourceRoots (sched w)
           else resourceRoots (sched w)) ∧
        gm (sched w') = AddResourceTopology (gm (sched w)) (mem w') (Some l) ∧
        resourceMap (sched w') = resourceMap (sched w) ∧
        jobMap (sched w') = jobMap (sched w) ∧
        taskMap (sched w') = taskMap (sched w) ∧
        taskBindings (sched w') = taskBindings (sched w) ∧
        jobsToSchedule (sched w') = jobsToSchedule (sched w) ∧
        runnableTasks (sched w') = runnableTasks (sched w) ∧
        solver (sched w') = solver (sched w).
Proof.
  intros Hrd.
  destruct (RegisterResource_known w l rd Hrd)
    as (w' & Hrun & _ & _ & _ & _ & _ & Hrest).
  by exists w'.
Qed.

(** X17. Registering a node once more, right after a registration that
    returned, returns and changes neither a resource descriptor nor the set
    of roots: the node is not in the set twice. *)
Theorem RegisterResource_again w l rd :
  rtnd_ResourceDesc (topologyNodes (mem w) l) = Some rd →
  ∃ w1 w2, RegisterResource (Some l) w = Returns () w1 ∧
           RegisterResource (Some l) w1 = Returns () w2 ∧
           (∀ r, resourceDescs (mem w2) r = resourceDescs (mem w1) r) ∧
           resourceRoots (sched w2) = resourceRoots (sched w1).
Proof.
  intros Hrd.
  destruct (RegisterResource_known w l rd Hrd)
    as (w1 & Hrun1 & Hdescs1 & _ & _ & _ & Htopo1 & Hroots1 & _).
  assert (rtnd_ResourceDesc (topologyNodes (mem w1) l) = Some rd) as Hrd1
    by (by rewrite Htopo1).
  destruct (RegisterResource_known w1 l rd Hrd1)
    as (w2 & Hrun2 & Hdescs2 & _ & _ & _ & _ & Hroots2 & _).
  exists w1, w2. split_and!; try done.
  - intros r. rewrite Hdescs2, Hdescs1.
    destruct (decide (rd_Type (resourceDescs (mem w) rd)
                      = ResourceDescriptor_ResourcePu)) as [Hpu|Hpu].
    + rewrite fn_lookup_insert. simpl. rewrite decide_True by done.
      unfold insert, fn_insert. by repeat (case_decide; simpl).
    + by rewrite decide_False.
  - rewrite Hroots2, Htopo1, Hroots1.
    destruct (decide (rtnd_ParentId (topologyNodes (mem w) l) = "")); [|done].
    by rewrite (assoc_L (∪)), union_idemp_L.
Qed.

End resources.

(** ** Delta application as a whole *)

Section deltas.
Context `{IDs} {G S : Type} `{!GraphManager G} `{!Solver S G}.
Implicit Types (w : world G S) (d : SchedulingDelta)
  (deltas : list SchedulingDelta).

Lemma applyDelta_unreadable_job d n w td resID rs :
  sd_Type d = SchedulingDelta_PLACE →
  types.FindPtrOrNull (taskMap (sched w)) (sd_TaskId d) = Some td →
  ResourceIDFromString (sd_ResourceId d) = Some resID →
  types.FindPtrOrNull (resourceMap (sched w)) resID = Some rs →
  JobIDFromString (td_JobID (taskDescs (mem w) td)) = None →
  applyDelta d n w = Halts MustFromString w.
Proof.
  intros Hty Htd Hid Hrs Hjob. unfold applyDelta, load. run.
  rewrite Htd, Hid, Hrs, Hty. run. by rewrite Hjob.
Qed.

(** The three ways a turn of the loop can go: it halts, in the state it
    started in; it is a turn for a delta other than a PLACE and changes
    nothing; or it is a PLACE whose job resolves. *)
Lemma applyDelta_cases d n w :
  (∃ h, applyDelta d n w = Halts h w) ∨
  (∃ td resID rs,
     (sd_Type d = SchedulingDelta_PREEMPT ∨
      sd_Type d = SchedulingDelta_MIGRATE ∨
      sd_Type d = SchedulingDelta_NOOP) ∧
     types.FindPtrOrNull (taskMap (sched w)) (sd_TaskId d) = Some td ∧
     ResourceIDFromString (sd_ResourceId d) = Some resID ∧
     types.FindPtrOrNull (resourceMap (sched w)) resID = Some rs ∧
     applyDelta d n w = Returns n w) ∨
  (∃ td resID rs jobID jd,
     sd_Type d = SchedulingDelta_PLACE ∧
     types.FindPtrOrNull (taskMap (sched w)) (sd_TaskId d) = Some td ∧
     ResourceIDFromString (sd_ResourceId d) = Some resID ∧
     types.FindPtrOrNull (resourceMap (sched w)) resID = Some rs ∧
     JobIDFromString (td_JobID (taskDescs (mem w) td)) = Some jobID ∧
     types.FindPtrOrNull (jobMap (sched w)) jobID = Some jd ∧
     applyDelta d n w =
       Returns (n + 1)
         (if decide (jd_State (jobDescs (mem w) jd) ≠ JobDescriptor_Running)
          then with_mem (with_jobDescs
                 (<[jd := set_jd_State JobDescriptor_Running
                            (jobDescs (mem w) jd)]> (jobDescs (mem w)))
                 (mem w)) w
          else w)).
Proof.
  destruct (types.FindPtrOrNull (taskMap (sched w)) (sd_TaskId d))
    as [td|] eqn:Htd; [|left; eauto using applyDelta_unknown_task].
  destruct (ResourceIDFromString (sd_ResourceId d))
    as [resID|] eqn:Hid; [|left; eauto using applyDelta_unreadable_resource].
  destruct (types.FindPtrOrNull (resourceMap (sched w)) resID)
    as [rs|] eqn:Hrs; [|left; eauto using applyDelta_unknown_resource].
  destruct (sd_Type d) eqn:Hty.
  - right; left. exists td, resID, rs.
    split_and!; eauto. eapply applyDelta_other_types; eauto.
  - destruct (JobIDFromString (td_JobID (taskDescs (mem w) td)))
      as [jobID|] eqn:Hjob; [|left; eauto using applyDelta_unreadable_job].
    destruct (types.FindPtrOrNull (jobMap (sched w)) jobID)
      as [jd|] eqn:Hjd; [|left; eauto using applyDelta_unknown_job].
    right; right. exists td, resID, rs, jobID, jd.
    split_and!; try done. by eapply applyDelta_PLACE.
  - right; left. exists td, resID, rs.
    split_and!; eauto. eapply applyDelta_other_types; eauto.
  - right; left. exists td, resID, rs.
    split_and!; eauto. eapply applyDelta_other_types; eauto.
  - left. eauto using applyDelta_unknown_type.
Qed.

(** X18. Applying a list made of two parts is applying the first part and
    then, from the counter and the state reached, the second; when the first
    part halts, so does the whole, in the same state. *)
Theorem ApplySchedulingDeltas_loop_app deltas1 deltas2 n w :
  ApplySchedulingDeltas_loop (deltas1 ++ deltas2) n w =
  match ApplySchedulingDeltas_loop deltas1 n w with
  | Returns n1 w1 => ApplySchedulingDeltas_loop deltas2 n1 w1
  | Halts h w1 => Halts h w1
  end.
Proof.
  revert n w. induction deltas1 as [|d deltas1 IH]; intros n w; simpl.
  - by run.
  - run. destruct (applyDelta d n w) as [n1 w1|h w1]; [|done]. apply IH.
Qed.

(** X19. A delta that halts the process does so before anything is written:
    the state at the halt is the state the turn started in.  The halt is the
    [log.Fatalf] of the unknown type exactly when the task and the resource
    resolve and the type is none of the four: a missing task or resource is
    reported first. *)
Theorem applyDelta_halts_before_writing d n w :
  (∀ h w', applyDelta d n w = Halts h w' → w' = w) ∧
  (halted (applyDelta d n w) = Some LogFatalf ↔
   taskResolves w d = true ∧ resourceResolves w d = true ∧
   recognized (sd_Type d) = false).
Proof.
  split.
  - intros h w' Hhalt.
    destruct (applyDelta_cases d n w)
      as [[h' Hd] | [(td & resID & rs & _ & _ & _ & _ & Hd)
                    | (td & resID & rs & jobID & jd & _ & _ & _ & _ & _ & _ & Hd)]];
      rewrite Hd in Hhalt; by simplify_eq.
  - unfold taskResolves, resourceResolves.
    destruct (types.FindPtrOrNull (taskMap (sched w)) (sd_TaskId d))
      as [td|] eqn:Htd.
    2:{ rewrite applyDelta_unknown_task by done. simpl. split; [done|].
        by intros [? _]. }
    destruct (ResourceIDFromString (sd_ResourceId d)) as [resID|] eqn:Hid.
    2:{ erewrite applyDelta_unreadable_resource by done. simpl.
        split; [done|]. by intros (_ & ? & _). }
    destruct (types.FindPtrOrNull (resourceMap (sched w)) resID)
      as [rs|] eqn:Hrs.
    2:{ erewrite applyDelta_unknown_resource by done. simpl.
        split; [done|]. by intros (_ & ? & _). }
    simpl. destruct (sd_Type d) eqn:Hty; simpl.
    + erewrite applyDelta_other_types by eauto. simpl.
      split; [done|]. by intros (_ & _ & ?).
    + split; [|by intros (_ & _ & ?)].
      destruct (JobIDFromString (td_JobID (taskDescs (mem w) td)))
        as [jobID|] eqn:Hjob.
      * destruct (types.FindPtrOrNull (jobMap (sched w)) jobID)
          as [jd|] eqn:Hjd.
        -- by erewrite applyDelta_PLACE by done.
        -- by erewrite applyDelta_unknown_job by done.
      * by erewrite applyDelta_unreadable_job by done.
    + erewrite applyDelta_other_types by eauto. simpl.
      split; [done|]. by intros (_ & _ & ?).
    + erewrite applyDelta_other_types by eauto. simpl.
      split; [done|]. by intros (_ & _ & ?).
    + by erewrite applyDelta_unknown_type by done.
Qed.

(** X20. Application is not undone by a halt: when the deltas before a
    halting delta have been applied, the process halts in the state they
    left, whatever deltas come after. *)
Theorem ApplySchedulingDeltas_halt_keeps_earlier deltas1 d deltas2 n w n1 w1 :
  ApplySchedulingDeltas_loop deltas1 n w = Returns n1 w1 →
  is_Some (halted (applyDelta d n1 w1)) →
  ∃ h, ApplySchedulingDeltas_loop (deltas1 ++ d :: deltas2) n w = Halts h w1.
Proof.
  revert n w. induction deltas1 as [|d1 deltas1 IH]; intros n w; simpl.
  - run. intros [= -> ->] [h Hh].
    destruct (applyDelta_cases d n1 w1)
      as [[h' Hd] | [(? & ? & ? & _ & _ & _ & _ & Hd)
                    | (? & ? & ? & ? & ? & _ & _ & _ & _ & _ & _ & Hd)]];
      rewrite Hd in Hh |- *; [|done..]. eauto.
  - run. destruct (applyDelta d1 n w) as [n2 w2|]; [|done]. apply IH.
Qed.

End deltas.

Section deltas_effects.
Context `{IDs} {G S : Type} `{!GraphManager G} `{!Solver S G}.
Implicit Types (w : world G S) (d : SchedulingDelta)
  (deltas : list SchedulingDelta).

(** What one turn of the loop can have changed, however it ended. *)
Lemma applyDelta_frame d n w :
  let w' := final (applyDelta d n w) in
  sched w' = sched w ∧
  taskDescs (mem w') = taskDescs (mem w) ∧
  resourceDescs (mem w') = resourceDescs (mem w) ∧
  resourceStatuses (mem w') = resourceStatuses (mem w) ∧
  topologyNodes (mem w') = topologyNodes (mem w) ∧
  ∀ l, jd_Uuid (jobDescs (mem w') l) = jd_Uuid (jobDescs (mem w) l) ∧
       (jd_State (jobDescs (mem w') l) = jd_State (jobDescs (mem w) l) ∨
        jd_State (jobDescs (mem w') l) = JobDescriptor_Running).
Proof.
  destruct (applyDelta_cases d n w)
    as [[h' Hd] | [(? & ? & ? & _ & _ & _ & _ & Hd)
                  | (? & ? & ? & ? & jd & _ & _ & _ & _ & _ & _ & Hd)]];
    rewrite Hd; simpl; [by eauto 10..|].
  case_decide; simpl; [|by eauto 10].
  split_and!; try done. intros l. unfold insert, fn_insert.
  case_decide; subst; simpl; eauto.
Qed.

(** X21. Whichever way [ApplySchedulingDeltas] ends, the scheduler's own
    fields are as before, and so is the memory but for job descriptors: of
    those no [Uuid] has changed, and a state has either stayed or become
    Running, so that a job that was Running still is. *)
Theorem ApplySchedulingDeltas_frame deltas w :
  let w' := final (ApplySchedulingDeltas deltas w) in
  sched w' = sched w ∧
  taskDescs (mem w') = taskDescs (mem w) ∧
  resourceDescs (mem w') = resourceDescs (mem w) ∧
  resourceStatuses (mem w') = resourceStatuses (mem w) ∧
  topologyNodes (mem w') = topologyNodes (mem w) ∧
  ∀ l, jd_Uuid (jobDescs (mem w') l) = jd_Uuid (jobDescs (mem w) l) ∧
       (jd_State (jobDescs (mem w') l) = jd_State (jobDescs (mem w) l) ∨
        jd_State (jobDescs (mem w') l) = JobDescriptor_Running).
Proof.
  unfold ApplySchedulingDeltas. generalize 0 as n. revert w.
  induction deltas as [|d deltas IH]; intros w n; simpl; [by eauto 10|].
  run. pose proof (applyDelta_frame d n w) as Hd.
  destruct (applyDelta d n w) as [n1 w1|h w1]; simpl in *; [|done].
  destruct Hd as (Hs & Ht & Hr & Hrs & Htopo & Hjobs).
  destruct (IH w1 n1) as (Hs' & Ht' & Hr' & Hrs' & Htopo' & Hjobs').
  split_and!; try congruence.
  intros l. destruct (Hjobs l) as [Hu Hst], (Hjobs' l) as [Hu' Hst'].
  split; [congruence|].
  destruct Hst' as [Hst'|Hst'], Hst as [Hst|Hst];
    [left|right|right|right]; congruence.
Qed.

(** X22. Only PLACE deltas change anything: applying a list without a PLACE
    leaves the state exactly as it was, whether the list is applied to its
    end, the count then being 0, or a delta of it halts the process. *)
Theorem ApplySchedulingDeltas_without_PLACE deltas w :
  Forall (λ d, sd_Type d ≠ SchedulingDelta_PLACE) deltas →
  final (ApplySchedulingDeltas deltas w) = w ∧
  (returned (ApplySchedulingDeltas deltas w) = Some 0 ∨
   is_Some (halted (ApplySchedulingDeltas deltas w))).
Proof.
  unfold ApplySchedulingDeltas. intros Hall. generalize 0 as n.
  induction Hall as [|d deltas Hty _ IH]; intros n; simpl; [by eauto|].
  run.
  destruct (applyDelta_cases d n w)
    as [[h' Hd] | [(? & ? & ? & _ & _ & _ & _ & Hd)
                  | (? & ? & ? & ? & jd & Hplace & _)]];
    [rewrite Hd; simpl; by eauto | rewrite Hd; apply IH | done].
Qed.

(** A turn that returned returns again, and writes nothing, from any state
    with the same scheduler and task descriptors in which the jobs that
    were Running after it are Running. *)
Lemma applyDelta_replay d n w n1 w1 n' w2 :
  applyDelta d n w = Returns n1 w1 →
  sched w2 = sched w →
  taskDescs (mem w2) = taskDescs (mem w) →
  (∀ l, jd_State (jobDescs (mem w1) l) = JobDescriptor_Running →
        jd_State (jobDescs (mem w2) l) = JobDescriptor_Running) →
  applyDelta d n' w2 = Returns (n' + (if isPlace d then 1 else 0)) w2.
Proof.
  intros Hrun Hs Ht Hrunning.
  destruct (applyDelta_cases d n w)
    as [[h' Hd] | [(td & resID & rs & Hty & Htd & Hid & Hrs & Hd)
                  | (td & resID & rs & jobID & jd & Hty & Htd & Hid & Hrs
                     & Hjob & Hjd & Hd)]];
    rewrite Hd in Hrun; simplify_eq.
  - rewrite <-Hs in Htd, Hrs.
    rewrite (applyDelta_other_types d n' w2 td resID rs) by done.
    unfold isPlace. rewrite bool_decide_eq_false_2
      by (by destruct Hty as [-> | [-> | ->]]).
    by rewrite Z.add_0_r.
  - rewrite <-Hs in Htd, Hrs, Hjd. rewrite <-Ht in Hjob.
    rewrite (applyDelta_PLACE d n' w2 td resID rs jobID jd) by done.
    unfold isPlace. rewrite bool_decide_eq_true_2 by done.
    rewrite decide_False; [done|]. intros Hne. apply Hne, Hrunning.
    case_decide as Hst; simpl.
    + by rewrite fn_lookup_insert.
    + done.
Qed.

(** X23. Deltas that have been applied can be applied again: from the state
    a successful application left, applying the same list returns, counts
    the same placements and leaves that state exactly as it is. *)
Theorem ApplySchedulingDeltas_again deltas w n w1 :
  ApplySchedulingDeltas deltas w = Returns n w1 →
  ApplySchedulingDeltas deltas w1 = Returns (countPlace deltas) w1.
Proof.
  unfold ApplySchedulingDeltas. intros Hrun.
  enough (∀ n0 n', ApplySchedulingDeltas_loop deltas n0 w = Returns n w1 →
            ApplySchedulingDeltas_loop deltas n' w1
            = Returns (n' + countPlace deltas) w1) as Hgen.
  { by rewrite (Hgen 0 0 Hrun). }
  clear Hrun. revert w.
  induction deltas as [|d deltas IH]; intros w n0 n'; simpl.
  - run. intros _. unfold countPlace. simpl. by rewrite Z.add_0_r.
  - run. destruct (applyDelta d n0 w) as [na wa|] eqn:Hd; [|done].
    intros Hrest.
    pose proof (applyDelta_frame d n0 w) as Hfa. rewrite Hd in Hfa.
    simpl in Hfa. destruct Hfa as (Hsa & Hta & _).
    pose proof (ApplySchedulingDeltas_loop_sched deltas na wa) as Hs1.
    rewrite Hrest in Hs1. simpl in Hs1.
    assert (taskDescs (mem w1) = taskDescs (mem wa) ∧
            ∀ l, jd_State (jobDescs (mem wa) l) = JobDescriptor_Running →
                 jd_State (jobDescs (mem w1) l) = JobDescriptor_Running)
      as [Ht1 Hmono].
    { clear -Hrest. revert na wa Hrest.
      induction deltas as [|d' deltas IH']; intros na wa; simpl.
      - run. by intros [= _ ->].
      - run. pose proof (applyDelta_frame d' na wa) as Hf.
        destruct (applyDelta d' na wa) as [nb wb|]; [|done]. simpl in Hf.
        destruct Hf as (_ & Htb & _ & _ & _ & Hjb).
        intros Hrest. destruct (IH' _ _ Hrest) as [Ht Hm].
        split; [congruence|]. intros l Hl. apply Hm.
        destruct (Hjb l) as [_ [Hsame|Hrun]]; congruence. }
    rewrite (applyDelta_replay d n0 w na wa n' w1 Hd);
      [|congruence|congruence|exact Hmono].
    rewrite (IH wa na _ Hrest). rewrite countPlace_cons. f_equal. lia.
Qed.

End deltas_effects.

(** ** The scheduling round as a whole *)

Section rounds.
Context `{IDs} {G S : Type} `{!GraphManager G} `{!Solver S G}
  `{!RangeOrder G S}.
Implicit Types (w : world G S).

(** X24. Whichever way a round ends, the three registries, the roots, the
    bindings and the two sets of pending work are as before it, and the
    solver is in the state [Solve] left it in: the solver has run even when
    a delta then halts the process. *)
Theorem RunSchedulingIteration_frame w :
  let w' := final (RunSchedulingIteration w) in
  resourceMap (sched w') = resourceMap (sched w) ∧
  jobMap (sched w') = jobMap (sched w) ∧
  taskMap (sched w') = taskMap (sched w) ∧
  resourceRoots (sched w') = resourceRoots (sched w) ∧
  taskBindings (sched w') = taskBindings (sched w) ∧
  jobsToSchedule (sched w') = jobsToSchedule (sched w) ∧
  runnableTasks (sched w') = runnableTasks (sched w) ∧
  solver (sched w') = (Solve (solver (sched w)) (gm (sched w))).2.
Proof.
  rewrite RunSchedulingIteration_unfold. simpl.
  match goal with |- context [ApplySchedulingDeltas ?ds ?w0] =>
    pose proof (ApplySchedulingDeltas_loop_sched ds 0 w0) as Hs;
    unfold ApplySchedulingDeltas;
    destruct (ApplySchedulingDeltas_loop ds 0 w0) as [n1 w1|h w1]
  end; simpl in *; rewrite Hs; done.
Qed.

(** X25. At the end of a round that returns, the graph manager's
    [UpdateResourceTopology] has been called once for every root, in some
    order of the roots and with the memory the deltas left; a round that
    halts has not called it: the graph manager's state is as before the
    round. *)
Theorem RunSchedulingIteration_updates_topology_on_return w :
  match RunSchedulingIteration w with
  | Returns _ w' =>
      ∃ order, order ≡ₚ elements (resourceRoots (sched w)) ∧
               gm (sched w') =
                 foldl (λ g rtnd, UpdateResourceTopology g (mem w') rtnd)
                   (gm (sched w)) order
  | Halts _ w' => gm (sched w') = gm (sched w)
  end.
Proof.
  rewrite RunSchedulingIteration_unfold. simpl.
  match goal with |- context [ApplySchedulingDeltas ?ds ?w0] =>
    pose proof (ApplySchedulingDeltas_loop_sched ds 0 w0) as Hs;
    unfold ApplySchedulingDeltas;
    destruct (ApplySchedulingDeltas_loop ds 0 w0) as [n1 w1|h w1]
  end; simpl in *; [|by rewrite Hs].
  exists (rangeRoots w1). split.
  - rewrite rangeRoots_perm. by rewrite Hs.
  - by rewrite Hs.
Qed.

(** X26. A round with nothing to do, the solver's mapping empty and no task
    preempted, returns the empty list and the count 0 and leaves the memory
    as it was. *)
Theorem RunSchedulingIteration_nothing_to_do w :
  (Solve (solver (sched w)) (gm (sched w))).1 = [] →
  SchedulingDeltasForPreemptedTasks (gm (sched w)) [] (resourceMap (sched w))
    = [] →
  returned (RunSchedulingIteration w) = Some ([], 0) ∧
  mem (final (RunSchedulingIteration w)) = mem w.
Proof.
  intros Hmap Hpre. rewrite RunSchedulingIteration_unfold. simpl.
  rewrite Hmap. simpl. rewrite Hpre. done.
Qed.

End rounds.

(** ** The further properties at work on the end-to-end run *)

Section scenario_further.
Import flowmanager placement runtime Scenario Examples.

Lemma AddJob_adds_to_jobsToSchedule_witness :
  JobIDFromString (jd_Uuid (jobDescs (mem world0) jd_J1)) = Some J1 ∧
  ∃ w', AddJob (Some jd_J1) world0 = Returns () w' ∧
        jobsToSchedule (sched w') !! J1 = Some (Some jd_J1) ∧
        jobMap (sched w') = jobMap (sched world0) ∧
        mem w' = mem world0.
Proof.
  split; [reflexivity|].
  destruct (AddJob_adds_to_jobsToSchedule world0 jd_J1 J1)
    as (w' & Hrun & Hin & _ & Hmap & _ & _ & Hmem); [reflexivity..|].
  exists w'. split_and!; assumption.
Defined.

(** A descriptor whose [Uuid] is no identifier. *)
Lemma AddJob_halts_unchanged_witness :
  let w := mkWorld (sched world0) memory_bad_uuid in
  JobIDFromString (jd_Uuid (jobDescs (mem w) jd_J1)) = None ∧
  is_Some (halted (AddJob (Some jd_J1) w)) ∧
  final (AddJob (Some jd_J1) w) = w.
Proof.
  intros w. split; [reflexivity|].
  pose proof (AddJob_halts_unchanged w (Some jd_J1)) as [Hiff Hsame].
  split.
  - apply Hiff. right. exists jd_J1. split; reflexivity.
  - exact (Hsame MustFromString w eq_refl).
Defined.

Lemma AddJob_then_completion_of_unregistered_job_witness :
  types.FindPtrOrNull (jobMap (sched (forget_jobs world0))) J1 = None ∧
  ∃ w', (AddJob (Some jd_J1);; HandleJobCompletion J1) (forget_jobs world0)
          = Halts LogPanicf w' ∧
        jobsToSchedule (sched w') !! J1 = Some (Some jd_J1).
Proof.
  split; [reflexivity|].
  exact (AddJob_then_completion_of_unregistered_job (forget_jobs world0)
           jd_J1 J1 eq_refl eq_refl).
Defined.

(** The descriptors at 10 and at 11 both carry the identifier of J1. *)
Lemma AddJob_replaces_same_identifier_witness :
  ∃ w', (AddJob (Some 10%N);; AddJob (Some 11%N)) world0 = Returns () w' ∧
        jobsToSchedule (sched w') !! J1 = Some (Some 11%N).
Proof.
  exact (AddJob_replaces_same_identifier world0 10%N 11%N J1 eq_refl eq_refl).
Defined.

Lemma HandleJobCompletion_again_witness :
  ∃ w1 w2, HandleJobCompletion J1 world0 = Returns () w1 ∧
           HandleJobCompletion J1 w1 = Returns () w2 ∧
           calls (gm (sched w2)) = [CallJobCompleted J1; CallJobCompleted J1].
Proof.
  destruct (HandleJobCompletion_again world0 J1 jd_J1)
    as (w1 & w2 & Hrun1 & Hrun2 & _ & _ & _ & _ & Hgm); [reflexivity..|].
  exists w1, w2. split_and!; [assumption..|]. by rewrite Hgm.
Defined.

(** A node without a descriptor, and no node at all. *)
Lemma RegisterResource_returns_iff_witness :
  let w := mkWorld (sched world0) memory_no_desc in
  RegisterResource (Some rtnd_M1) w = Halts NilDereference w ∧
  RegisterResource None world0 = Halts NilDereference world0 ∧
  is_Some (returned (RegisterResource (Some rtnd_M1) world0)).
Proof.
  intros w. split_and!.
  - destruct (proj2 (RegisterResource_returns_iff w (Some rtnd_M1)))
      as [[u Hu]|Hhalt]; [discriminate Hu|exact Hhalt].
  - destruct (proj2 (RegisterResource_returns_iff world0 None))
      as [[u Hu]|Hhalt]; [discriminate Hu|exact Hhalt].
  - apply (proj1 (RegisterResource_returns_iff world0 (Some rtnd_M1))).
    exists rtnd_M1, rd_M1. split; reflexivity.
Defined.

(** Registering the processing unit P1 marks it. *)
Lemma RegisterResource_marks_given_node_witness :
  rd_Schedulable (resourceDescs (mem world0) rd_P1) = false ∧
  ∃ w', RegisterResource (Some rtnd_P1) world0 = Returns () w' ∧
        rd_Schedulable (resourceDescs (mem w') rd_P1) = true ∧
        rd_Schedulable (resourceDescs (mem w') rd_P2) = false.
Proof.
  split; [reflexivity|].
  destruct (RegisterResource_marks_given_node world0 rtnd_P1 rd_P1)
    as (w' & Hrun & Hflags & _); [reflexivity..|].
  exists w'. split; [assumption|].
  split; [exact (proj2 (Hflags rd_P1)) | exact (proj2 (Hflags rd_P2))].
Defined.

(** M1 has no parent and becomes a root; P1 has one and does not. *)
Lemma RegisterResource_roots_and_graph_manager_witness :
  (∃ w', RegisterResource (Some rtnd_M1) world0 = Returns () w' ∧
         resourceRoots (sched w') = {[Some rtnd_M1]} ∪ ∅ ∧
         calls (gm (sched w')) = [CallAddResourceTopology (Some rtnd_M1)]) ∧
  (∃ w', RegisterResource (Some rtnd_P1) world0 = Returns () w' ∧
         resourceRoots (sched w') = ∅).
Proof.
  split.
  - destruct (RegisterResource_roots_and_graph_manager world0 rtnd_M1 rd_M1)
    as (w' & Hrun & Hroots & Hgm & _); [reflexivity..|].
    exists w'. split_and!; [assumption..|]. by rewrite Hgm.
  - destruct (RegisterResource_roots_and_graph_manager world0 rtnd_P1 rd_P1)
    as (w' & Hrun & Hroots & _); [reflexivity..|].
    exists w'. split; assumption.
Defined.

Lemma RegisterResource_again_witness :
  ∃ w1 w2, RegisterResource (Some rtnd_M1) world0 = Returns () w1 ∧
           RegisterResource (Some rtnd_M1) w1 = Returns () w2 ∧
           resourceRoots (sched w2) = resourceRoots (sched w1).
Proof.
  destruct (RegisterResource_again world0 rtnd_M1 rd_M1)
    as (w1 & w2 & Hrun1 & Hrun2 & _ & Hroots); [reflexivity..|].
  exists w1, w2. split_and!; assumption.
Defined.

(** A delta of a type the code does not know, for a task and a resource that
    resolve. *)
Lemma applyDelta_halts_before_writing_witness :
  let d := mkSchedulingDelta (SchedulingDelta_Type_other 7) T1 "P1" in
  halted (applyDelta d 0 world0) = Some LogFatalf ∧
  final (applyDelta d 0 world0) = world0.
Proof.
  intros d.
  pose proof (applyDelta_halts_before_writing d 0 world0) as [Hsame Hfatal].
  split.
  - apply Hfatal. split_and!; reflexivity.
  - exact (Hsame LogFatalf world0 eq_refl).
Defined.

(** T1 is placed, then a delta for an unknown task halts the process: J1 is
    Running in the state at the halt. *)
Lemma ApplySchedulingDeltas_halt_keeps_earlier_witness :
  let w1 := final (ApplySchedulingDeltas_loop [place_T1_P1] 0 world0) in
  jd_State (jobDescs (mem w1) jd_J1) = JobDescriptor_Running ∧
  ∃ h, ApplySchedulingDeltas_loop
         ([place_T1_P1] ++ unknown_task :: [preempt_T2_P2]) 0 world0
       = Halts h w1.
Proof.
  intros w1. split; [reflexivity|].
  refine (ApplySchedulingDeltas_halt_keeps_earlier [place_T1_P1] unknown_task
            [preempt_T2_P2] 0 world0 1 w1 eq_refl _).
  by exists ExplicitPanic.
Defined.

Lemma ApplySchedulingDeltas_without_PLACE_witness :
  final (ApplySchedulingDeltas [preempt_T2_P2; unknown_task] world0) = world0 ∧
  final (ApplySchedulingDeltas [preempt_T2_P2] world0) = world0.
Proof.
  split.
  - refine (proj1 (ApplySchedulingDeltas_without_PLACE
                     [preempt_T2_P2; unknown_task] world0 _)).
    repeat constructor; discriminate.
  - refine (proj1 (ApplySchedulingDeltas_without_PLACE
                     [preempt_T2_P2] world0 _)).
    repeat constructor; discriminate.
Defined.

Lemma ApplySchedulingDeltas_again_witness :
  let deltas := [place_T1_P1; preempt_T2_P2] in
  let w1 := final (ApplySchedulingDeltas deltas world0) in
  ApplySchedulingDeltas deltas world0 = Returns 1 w1 ∧
  ApplySchedulingDeltas deltas w1 = Returns 1 w1.
Proof.
  intros deltas w1.
  assert (ApplySchedulingDeltas deltas world0 = Returns 1 w1) as Hrun
    by reflexivity.
  split; [exact Hrun|].
  exact (ApplySchedulingDeltas_again deltas world0 1 w1 Hrun).
Defined.

(** The calls the graph manager of the runs has on record after the loop
    over the roots. *)
Lemma calls_after_updates (g : graphManager) (m : memory)
    (order : list (option N)) :
  calls (foldl (λ g rtnd, UpdateResourceTopology g m rtnd) g order)
  = (CallUpdateResourceTopology <$> reverse order) ++ calls g.
Proof.
  revert g. induction order as [|rtnd order IH]; intros g; simpl; [done|].
  rewrite IH, reverse_cons, fmap_app. simpl. by rewrite <-app_assoc.
Qed.

(** A round over two roots, the loop meeting them in the backwards order:
    the graph manager has one call on record for each root. *)
Lemma RunSchedulingIteration_updates_topology_on_return_witness :
  let round :=
    RunSchedulingIteration (RangeOrder0 := backwards_RangeOrder)
      world_two_roots in
  ∃ order, order ≡ₚ elements (resourceRoots (sched world_two_roots)) ∧
           calls (gm (sched (final round)))
           = CallUpdateResourceTopology <$> reverse order.
Proof.
  intros round.
  pose proof (RunSchedulingIteration_updates_topology_on_return
                (RangeOrder0 := backwards_RangeOrder) world_two_roots)
    as Hround.
  assert (RunSchedulingIteration (RangeOrder0 := backwards_RangeOrder)
            world_two_roots = Returns ([], 0) (final round)) as Hrun
    by reflexivity.
  rewrite Hrun in Hround. destruct Hround as (order & Hperm & Hgm).
  exists order. split; [exact Hperm|].
  rewrite Hgm, calls_after_updates. apply app_nil_r.
Defined.

Lemma RunSchedulingIteration_nothing_to_do_witness :
  returned (RunSchedulingIteration world_idle) = Some ([], 0) ∧
  mem (final (RunSchedulingIteration world_idle)) = mem world_idle.
Proof.
  exact (RunSchedulingIteration_nothing_to_do world_idle eq_refl eq_refl).
Defined.

End scenario_further.
